(** * whatsapp-server: the multi-session server of [src/server.js]

    A shallow embedding of the session map, the provider event handlers
    registered by [setupSession], the HTTP routes and the socket [join]
    handler, followed by the properties of the specification that concern
    them.

    Modelling conventions.
    - [sessions] is a plain JavaScript object used as a map.  Its own
      properties are kept as a list in creation order; [ownKeys] gives the
      order in which [for ... in] and [Object.keys] visit them
      (ECMAScript OrdinaryOwnPropertyKeys: keys that are array indices first,
      in ascending numeric order, then the other string keys in creation
      order).
    - A property holds either [null] or a session object
      [{ client, latestQR, isReady }]; a missing property reads [undefined]
      unless the name is inherited.
    - Calls that leave the process (the provider client, the [Message]
      model, the credential collection, [qrcode.toDataURL]) are answered by an
      environment [Env]; each of them can resolve or reject.
    - The server is modelled on two levels.  On the first, [sessions] is its
      own properties, and an [async] handler is a state transformer over
      [World] which either resolves or rejects, [await] being sequencing:
      a handler with nothing else running until it ends, on session ids that
      are no names of [Object.prototype].  Concurrent calls of
      [setupSession] are interleaved explicitly there.  On the second, the
      module [EventLoop], [sessions] has its prototype chain ([__proto__],
      [constructor] and the other inherited names), and every handler is
      split at its [await]s into the pieces that the event loop runs, other
      handlers coming in between. *)

From Stdlib Require Import String Ascii List NArith Bool Arith Lia.
From Stdlib Require Import Permutation Sorted.
Import ListNotations.
Open Scope string_scope.

(** ** The [sessions] object *)

Module JsObject.

Section Obj.
Context {V : Type}.

(** Own properties, oldest first. *)
Definition Obj := list (string * V).

(** [o[k]]: [None] stands for [undefined]. *)
Fixpoint get (o : Obj) (k : string) : option V :=
  match o with
  | [] => None
  | (k', v) :: rest => if String.eqb k' k then Some v else get rest k
  end.

(** [o[k] = v]: an existing property keeps its place, a new one goes last. *)
Fixpoint set (o : Obj) (k : string) (v : V) : Obj :=
  match o with
  | [] => [(k, v)]
  | (k', v') :: rest =>
      if String.eqb k' k then (k', v) :: rest else (k', v') :: set rest k v
  end.

(** [delete o[k]]. *)
Definition delete (o : Obj) (k : string) : Obj :=
  filter (fun p => negb (String.eqb (fst p) k)) o.

Definition creationOrder (o : Obj) : list string := map fst o.
End Obj.

Arguments Obj V : clear implicits.

(** Array indices: canonical decimal strings of integers below [2^32 - 1]. *)
Definition digit (c : ascii) : option N :=
  let n := N_of_ascii c in
  if ((48 <=? n) && (n <=? 57))%N then Some (n - 48)%N else None.

Fixpoint digits (s : string) (acc : N) : option N :=
  match s with
  | EmptyString => Some acc
  | String c rest =>
      match digit c with
      | Some d => digits rest (10 * acc + d)%N
      | None => None
      end
  end.

Definition arrayIndex (k : string) : option N :=
  match k with
  | EmptyString => None
  | String "0" EmptyString => Some 0%N
  | String "0" _ => None
  | _ =>
      match digits k 0%N with
      | Some n => if (n <? 4294967295)%N then Some n else None
      | None => None
      end
  end.

Definition isArrayIndex (k : string) : bool :=
  match arrayIndex k with Some _ => true | None => false end.

Fixpoint insertIndex (n : N) (k : string) (l : list (N * string))
  : list (N * string) :=
  match l with
  | [] => [(n, k)]
  | (m, k') :: rest =>
      if (n <=? m)%N then (n, k) :: l else (m, k') :: insertIndex n k rest
  end.

Fixpoint indexKeys (ks : list string) : list (N * string) :=
  match ks with
  | [] => []
  | k :: rest =>
      match arrayIndex k with
      | Some n => insertIndex n k (indexKeys rest)
      | None => indexKeys rest
      end
  end.

(** The order of [for (k in o)] and of [Object.keys(o)]. *)
Definition ownKeys {V} (o : Obj V) : list string :=
  map snd (indexKeys (creationOrder o))
  ++ filter (fun k => negb (isArrayIndex k)) (creationOrder o).

End JsObject.

Import JsObject.

(** ** Values *)

(** A session object; clients are numbered in the order [new Client] made
    them. *)
Record Session := mkSession {
  client : nat;
  latestQR : option string;
  isReady : bool
}.

(** What a property of [sessions] holds: [None] is [null]. *)
Definition Entry := option Session.

(** A document of the [Message] model. *)
Record MessageDoc := mkMessage {
  sessionId : string;
  from : string;
  to : string;
  text : string;
  time : N
}.

(** A settled promise. *)
Inductive Settled (A : Type) :=
| Resolved (a : A)
| Rejected (err : string).
Arguments Resolved {A} a.
Arguments Rejected {A} err.

(** Payloads pushed over socket.io. *)
Inductive Push :=
| PushQr (imageUrl : string)
| PushReady
| PushMessage (from text : string) (time : N)
| PushDisconnected.

(** Calls that leave the process, in the order they are made. *)
Inductive Effect :=
| NewClient (c : nat) (sessionId : string)
| ClientInitialize (c : nat)
| ClientSendMessage (c : nat) (chatId message : string)
| ClientLogout (c : nat)
| ClientDestroy (c : nat)
| MessageCreate (doc : MessageDoc)
| SessionsDeleteMany (clientId : string)
| RoomEmit (room : string) (p : Push)
| SocketJoin (socket : nat) (room : string)
| SocketEmit (socket : nat) (p : Push).

(** The answers of the outside world. *)
Record Env := mkEnv {
  toDataURL : string -> Settled string;
  initialize : nat -> Settled unit;
  sendMessage : nat -> string -> string -> Settled string;
  logout : nat -> Settled unit;
  destroy : nat -> Settled unit;
  create : MessageDoc -> Settled unit;
  deleteMany : string -> Settled unit
}.

(** The process state: the [sessions] object, the session id each
    constructed client closes over, the [Message] collection and the trace of
    outside calls. *)
Record World := mkWorld {
  sessions : Obj Entry;
  clients : list string;
  messages : list MessageDoc;
  trace : list Effect
}.

Definition emptyWorld : World := mkWorld [] [] [] [].

Definition withSessions (w : World) (o : Obj Entry) : World :=
  mkWorld o (clients w) (messages w) (trace w).

Definition record (e : Effect) (w : World) : World :=
  mkWorld (sessions w) (clients w) (messages w) (trace w ++ [e]).

(** ** Asynchronous handlers *)

Definition Async (A : Type) := World -> Settled A * World.

Definition ret {A} (a : A) : Async A := fun w => (Resolved a, w).

Definition throw {A} (err : string) : Async A := fun w => (Rejected err, w).

Definition bind {A B} (m : Async A) (k : A -> Async B) : Async B :=
  fun w =>
    match m w with
    | (Resolved a, w') => k a w'
    | (Rejected err, w') => (Rejected err, w')
    end.

(** [try { m } catch (err) { h err }] *)
Definition tryCatch {A} (m : Async A) (h : string -> Async A) : Async A :=
  fun w =>
    match m w with
    | (Resolved a, w') => (Resolved a, w')
    | (Rejected err, w') => h err w'
    end.

Notation "x <- m ;; k" := (bind m (fun x => k))
  (at level 61, m at next level, right associativity).
Notation "m ;;; k" := (bind m (fun _ => k))
  (at level 61, right associativity).

(** An outside call: recorded, then settled as the environment says. *)
Definition call {A} (e : Effect) (answer : Settled A) : Async A :=
  fun w => (answer, record e w).

Definition effect (e : Effect) : Async unit := call e (Resolved tt).

Definition readSessions : Async (Obj Entry) := fun w => (Resolved (sessions w), w).

Definition writeSessions (o : Obj Entry) : Async unit :=
  fun w => (Resolved tt, withSessions w o).

(** [Message.create(doc)]: the document is in the collection only when the
    write resolves. *)
Definition Message_create (env : Env) (doc : MessageDoc) : Async unit :=
  fun w =>
    match create env doc with
    | Resolved tt =>
        (Resolved tt,
         mkWorld (sessions w) (clients w) (messages w ++ [doc])
                 (trace w ++ [MessageCreate doc]))
    | Rejected err => (Rejected err, record (MessageCreate doc) w)
    end.

(** ** JavaScript helpers *)

(** Truthiness of a value that is a string, [null] or [undefined]. *)
Definition truthy (v : option string) : bool :=
  match v with
  | Some s => negb (String.eqb s EmptyString)
  | None => false
  end.

(** The string a truthy value is. *)
Definition stringOf (v : option string) : string :=
  match v with
  | Some s => s
  | None => EmptyString
  end.

Definition quote : string := String (ascii_of_nat 34) EmptyString.

(** [sessions[id]?.client], as a condition. *)
Definition hasClient (e : option Entry) : bool :=
  match e with
  | Some (Some _) => true
  | _ => false
  end.

(** [sessions[id]?.latestQR] *)
Definition latestQROf (e : option Entry) : option string :=
  match e with
  | Some (Some s) => latestQR s
  | _ => None
  end.

(** [sessions[id]?.isReady || false] *)
Definition isReadyOf (e : option Entry) : bool :=
  match e with
  | Some (Some s) => isReady s
  | _ => false
  end.

(** [s.replace(pat, empty)] for a string pattern: the first occurrence goes. *)
Fixpoint replaceFirst (pat s : string) : string :=
  if String.prefix pat s then
    substring (String.length pat) (String.length s - String.length pat) s
  else
    match s with
    | EmptyString => EmptyString
    | String c rest => String c (replaceFirst pat rest)
    end.

(** ** [setupSession] and the provider event handlers *)

Section Server.
Variable env : Env.

(** The part of [setupSession] that runs before its only [await]: the guard,
    [new Client], the assignment to [sessions] and the call of
    [client.initialize()].  It answers the client whose initialization is
    now pending, if one was made. *)
Definition setupSession_start (sessionId : string) (w : World)
  : option nat * World :=
  if hasClient (get (sessions w) sessionId) then (None, w)
  else
    let c := length (clients w) in
    (Some c,
     mkWorld (set (sessions w) sessionId (Some (mkSession c None false)))
             (clients w ++ [sessionId])
             (messages w)
             (trace w ++ [NewClient c sessionId; ClientInitialize c])).

(** [async function setupSession(sessionId)] *)
Definition setupSession (sessionId : string) : Async unit :=
  fun w =>
    match setupSession_start sessionId w with
    | (None, w') => (Resolved tt, w')
    | (Some c, w') => (initialize env c, w')
    end.

(** Assignment to the field [field] of [sessions[sessionId]]: a [TypeError]
    with the engine's message when the property is [null] or missing. *)
Definition updateSession (sessionId field : string) (f : Session -> Session)
  : Async unit :=
  o <- readSessions ;;
  match get o sessionId with
  | Some (Some s) => writeSessions (set o sessionId (Some (f s)))
  | Some None =>
      throw ("Cannot set properties of null (setting '" ++ field ++ "')")
  | None =>
      throw ("Cannot set properties of undefined (setting '" ++ field ++ "')")
  end.

(** [client.on("qr", async (qr) => ...)] *)
Definition on_qr (sessionId qr : string) : Async unit :=
  imageUrl <- (fun w => (toDataURL env qr, w)) ;;
  updateSession sessionId "latestQR"
    (fun s => mkSession (client s) (Some imageUrl) (isReady s)) ;;;
  effect (RoomEmit sessionId (PushQr imageUrl)).

(** [client.on("authenticated", ...)] only logs. *)
Definition on_authenticated (sessionId : string) : Async unit := ret tt.

(** [client.on("ready", ...)] *)
Definition on_ready (sessionId : string) : Async unit :=
  updateSession sessionId "isReady"
    (fun s => mkSession (client s) (latestQR s) true) ;;;
  updateSession sessionId "latestQR"
    (fun s => mkSession (client s) None (isReady s)) ;;;
  effect (RoomEmit sessionId PushReady).

(** [client.on("remote_session_saved", ...)] only logs. *)
Definition on_remote_session_saved (sessionId : string) : Async unit := ret tt.

(** [client.on("message", async (msg) => ...)]; [now] is what [new Date()]
    reads. *)
Definition on_message (sessionId msgFrom msgBody : string) (now : N)
  : Async unit :=
  let from := replaceFirst "@c.us" msgFrom in
  let text := msgBody in
  let time := now in
  Message_create env (mkMessage sessionId from sessionId text time) ;;;
  effect (RoomEmit sessionId (PushMessage from text time)).

(** [client.on("disconnected", ...)] *)
Definition on_disconnected (sessionId : string) : Async unit :=
  o <- readSessions ;;
  writeSessions (set o sessionId None) ;;;
  effect (RoomEmit sessionId PushDisconnected).

(** Events a client emits. *)
Inductive ProviderEvent :=
| EvQr (qr : string)
| EvAuthenticated
| EvReady
| EvRemoteSessionSaved
| EvMessage (msgFrom msgBody : string) (now : N)
| EvDisconnected.

Definition handler (sessionId : string) (ev : ProviderEvent) : Async unit :=
  match ev with
  | EvQr qr => on_qr sessionId qr
  | EvAuthenticated => on_authenticated sessionId
  | EvReady => on_ready sessionId
  | EvRemoteSessionSaved => on_remote_session_saved sessionId
  | EvMessage f b now => on_message sessionId f b now
  | EvDisconnected => on_disconnected sessionId
  end.

(** Client [c] emits [ev]: the handlers registered on it close over the
    session id it was made for.  A client that was never made has none. *)
Definition emitFrom (c : nat) (ev : ProviderEvent) : Async unit :=
  fun w =>
    match nth_error (clients w) c with
    | Some sessionId => handler sessionId ev w
    | None => (Resolved tt, w)
    end.

(** ** HTTP routes *)

Inductive BroadcastResult :=
| ResultSent (sessionId messageId : string)
| ResultFailed (sessionId error : string).

Definition resultSessionId (r : BroadcastResult) : string :=
  match r with
  | ResultSent s _ => s
  | ResultFailed s _ => s
  end.

Definition success (r : BroadcastResult) : bool :=
  match r with
  | ResultSent _ _ => true
  | ResultFailed _ _ => false
  end.

Record SessionInfo := mkInfo {
  infoSessionId : string;
  infoIsReady : bool;
  hasQR : bool
}.

Inductive Body :=
| BodyText (html : string)
| BodyQr (qr : string)
| BodyMessage (message : string)
| BodyReady (ready : bool)
| BodySessions (list : list SessionInfo)
| BodySuccess (message : string)
| BodyError (error : string)
| BodySent (messageId : string)
| BodyResults (results : list BroadcastResult).

Record Response := mkResponse {
  status : nat;
  body : Body
}.

Definition json (b : Body) : Response := mkResponse 200 b.

(** [GET /qr/:sessionId] *)
Definition get_qr_view (sessionId : string) : Async Response :=
  setupSession sessionId ;;;
  o <- readSessions ;;
  let qr := latestQROf (get o sessionId) in
  if negb (truthy qr) then ret (json (BodyText "QR not ready"))
  else
    ret (json (BodyText ("<html><body><h2>Scan QR for " ++ sessionId
                         ++ "</h2><img src=" ++ quote ++ stringOf qr ++ quote
                         ++ " width=" ++ quote ++ "300" ++ quote
                         ++ "/></body></html>"))).

(** [GET /api/qr/:sessionId] *)
Definition get_api_qr (sessionId : string) : Async Response :=
  o <- readSessions ;;
  let qr := latestQROf (get o sessionId) in
  if truthy qr then ret (json (BodyQr (stringOf qr)))
  else ret (mkResponse 404 (BodyMessage "QR not ready")).

(** [GET /api/status/:sessionId] *)
Definition get_api_status (sessionId : string) : Async Response :=
  o <- readSessions ;;
  ret (json (BodyReady (isReadyOf (get o sessionId)))).

(** [GET /api/sessions] *)
Definition get_api_sessions : Async Response :=
  o <- readSessions ;;
  ret (json (BodySessions
    (map (fun sessionId =>
            mkInfo sessionId
                   (isReadyOf (get o sessionId))
                   (truthy (latestQROf (get o sessionId))))
         (ownKeys o)))).

(** [GET /api/logout/:sessionId] *)
Definition get_api_logout (sessionId : string) : Async Response :=
  o <- readSessions ;;
  match get o sessionId with
  | Some (Some session) =>
      call (ClientLogout (client session)) (logout env (client session)) ;;;
      call (ClientDestroy (client session)) (destroy env (client session)) ;;;
      o' <- readSessions ;;
      writeSessions (set o' sessionId None) ;;;
      ret (json (BodySuccess (sessionId ++ " logged out")))
  | _ => ret (mkResponse 400 (BodyError "Session not found"))
  end.

(** [DELETE /api/session/:sessionId]; the promise of [destroy()] is not
    awaited. *)
Definition delete_api_session (sessionId : string) : Async Response :=
  tryCatch
    (call (SessionsDeleteMany sessionId) (deleteMany env sessionId) ;;;
     o <- readSessions ;;
     match get o sessionId with
     | Some (Some session) => effect (ClientDestroy (client session))
     | _ => ret tt
     end ;;;
     writeSessions (delete o sessionId) ;;;
     ret (json (BodySuccess (sessionId ++ " session deleted"))))
    (fun err => ret (mkResponse 500 (BodyError err))).

(** [POST /api/send]; [now] is what [new Date()] reads. *)
Definition post_api_send (sessionId number message : string) (now : N)
  : Async Response :=
  o <- readSessions ;;
  match get o sessionId with
  | Some (Some session) =>
      if negb (isReady session)
      then ret (mkResponse 400 (BodyError "Session not ready"))
      else
        tryCatch
          (let chatId := number ++ "@c.us" in
           sent <- call (ClientSendMessage (client session) chatId message)
                        (sendMessage env (client session) chatId message) ;;
           Message_create env
             (mkMessage sessionId "admin" number message now) ;;;
           ret (json (BodySent sent)))
          (fun err => ret (mkResponse 500 (BodyError err)))
  | _ => ret (mkResponse 400 (BodyError "Session not ready"))
  end.

(** The body of the [for (const sessionId in sessions)] loop of
    [POST /api/broadcast]. *)
Definition broadcastOne (number message sessionId : string)
  : Async BroadcastResult :=
  o <- readSessions ;;
  match get o sessionId with
  | Some (Some session) =>
      if isReady session then
        tryCatch
          (sent <- call (ClientSendMessage (client session)
                                           (number ++ "@c.us") message)
                        (sendMessage env (client session)
                                     (number ++ "@c.us") message) ;;
           ret (ResultSent sessionId sent))
          (fun err => ret (ResultFailed sessionId err))
      else ret (ResultFailed sessionId "Session not ready")
  | _ => ret (ResultFailed sessionId "Session not ready")
  end.

Fixpoint broadcastLoop (number message : string) (keys : list string)
  (results : list BroadcastResult) : Async (list BroadcastResult) :=
  match keys with
  | [] => ret results
  | sessionId :: rest =>
      r <- broadcastOne number message sessionId ;;
      broadcastLoop number message rest (results ++ [r])
  end.

(** [POST /api/broadcast] *)
Definition post_api_broadcast (number message : string) : Async Response :=
  o <- readSessions ;;
  results <- broadcastLoop number message (ownKeys o) [] ;;
  ret (json (BodyResults results)).

(** ** socket.io *)

(** [socket.on("join", async (sessionId) => ...)] *)
Definition on_join (socket : nat) (sessionId : string) : Async unit :=
  effect (SocketJoin socket sessionId) ;;;
  setupSession sessionId ;;;
  o <- readSessions ;;
  let qr := latestQROf (get o sessionId) in
  if truthy qr then effect (SocketEmit socket (PushQr (stringOf qr)))
  else if isReadyOf (get o sessionId)
       then effect (SocketEmit socket PushReady)
       else ret tt.

End Server.

(** ** Session states

    The specification's states, read off the two fields the routes test:
    [isReady] is what [/api/status] reports and [/api/send] requires,
    the truthiness of [latestQR] is what [/api/sessions] reports as [hasQR];
    [null] is what [disconnected] and logout leave behind.  The handler of
    [authenticated] only logs, so the code has no state of its own between
    the scan and [ready]. *)

Inductive State :=
| Uninitialized
| AwaitingScan
| Ready
| Terminated.

Definition stateOf (e : Entry) : State :=
  match e with
  | None => Terminated
  | Some s =>
      if isReady s then Ready
      else if truthy (latestQR s) then AwaitingScan
      else Uninitialized
  end.

(** ** Runs of the server *)

(** What the event loop can be given: an event of a client, a request, or a
    socket [join]. *)
Inductive Action :=
| Emits (c : nat) (ev : ProviderEvent)
| GetQrView (sessionId : string)
| GetApiQr (sessionId : string)
| GetApiStatus (sessionId : string)
| GetApiSessions
| GetApiLogout (sessionId : string)
| DeleteApiSession (sessionId : string)
| PostApiSend (sessionId number message : string) (now : N)
| PostApiBroadcast (number message : string)
| Join (socket : nat) (sessionId : string).

Definition step (env : Env) (a : Action) (w : World) : World :=
  match a with
  | Emits c ev => snd (emitFrom env c ev w)
  | GetQrView sessionId => snd (get_qr_view env sessionId w)
  | GetApiQr sessionId => snd (get_api_qr sessionId w)
  | GetApiStatus sessionId => snd (get_api_status sessionId w)
  | GetApiSessions => snd (get_api_sessions w)
  | GetApiLogout sessionId => snd (get_api_logout env sessionId w)
  | DeleteApiSession sessionId => snd (delete_api_session env sessionId w)
  | PostApiSend sessionId number message now =>
      snd (post_api_send env sessionId number message now w)
  | PostApiBroadcast number message =>
      snd (post_api_broadcast env number message w)
  | Join socket sessionId => snd (on_join env socket sessionId w)
  end.

Definition run (env : Env) (acts : list Action) (w : World) : World :=
  fold_left (fun w a => step env a w) acts w.

(** A [qr] event that reaches a session whose [isReady] is already set. *)
Definition qrWhileReady (a : Action) (w : World) : bool :=
  match a with
  | Emits c (EvQr _) =>
      match nth_error (clients w) c with
      | Some sessionId => isReadyOf (get (sessions w) sessionId)
      | None => false
      end
  | _ => false
  end.

(** ** Concurrent calls of [setupSession]

    JavaScript runs a handler to its next [await] without interruption.
    [setupSession] has one [await], on [client.initialize()], so a call is
    two uninterrupted pieces: [setupSession_start], and the return once the
    initialization has settled.  A schedule names, step by step, the call
    that runs its next piece. *)

Inductive CallState :=
| NotStarted
| AwaitingInitialize (c : nat)
| Returned
| Threw (err : string).

Fixpoint setNth {A} (i : nat) (a : A) (l : list A) : list A :=
  match l, i with
  | [], _ => []
  | _ :: rest, O => a :: rest
  | x :: rest, S j => x :: setNth j a rest
  end.

Definition resume (env : Env) (sessionId : string) (i : nat)
  (st : list CallState * World) : list CallState * World :=
  let (calls, w) := st in
  match nth_error calls i with
  | Some NotStarted =>
      match setupSession_start sessionId w with
      | (None, w') => (setNth i Returned calls, w')
      | (Some c, w') => (setNth i (AwaitingInitialize c) calls, w')
      end
  | Some (AwaitingInitialize c) =>
      match initialize env c with
      | Resolved _ => (setNth i Returned calls, w)
      | Rejected err => (setNth i (Threw err) calls, w)
      end
  | _ => st
  end.


(** ** What a broadcast owes each key *)

(** The result of one key, from its property and the provider's answer to
    its own client. *)
Definition resultFor (env : Env) (number message : string) (o : Obj Entry)
  (sessionId : string) : BroadcastResult :=
  match get o sessionId with
  | Some (Some s) =>
      if isReady s then
        match sendMessage env (client s) (number ++ "@c.us") message with
        | Resolved messageId => ResultSent sessionId messageId
        | Rejected err => ResultFailed sessionId err
        end
      else ResultFailed sessionId "Session not ready"
  | _ => ResultFailed sessionId "Session not ready"
  end.

(** The provider calls one key causes. *)
Definition contactFor (number message : string) (o : Obj Entry)
  (sessionId : string) : list Effect :=
  match get o sessionId with
  | Some (Some s) =>
      if isReady s
      then [ClientSendMessage (client s) (number ++ "@c.us") message]
      else []
  | _ => []
  end.

(** ** Replay on join *)

(** What a [join] pushes back to the joining socket for a live session. *)
Definition replay (socket : nat) (s : Session) : list Effect :=
  if truthy (latestQR s)
  then [SocketEmit socket (PushQr (stringOf (latestQR s)))]
  else if isReady s then [SocketEmit socket PushReady] else [].

(** ** Sample environments and worlds *)

Definition dataUrl (qr : string) : string := "data:image/png;base64," ++ qr.

(** Every outside call resolves. *)
Definition calm : Env :=
  mkEnv (fun qr => Resolved (dataUrl qr))
        (fun _ => Resolved tt)
        (fun c chatId _ => Resolved ("true_" ++ chatId ++ "_3EB0"))
        (fun _ => Resolved tt)
        (fun _ => Resolved tt)
        (fun _ => Resolved tt)
        (fun _ => Resolved tt).

(** The [Message] collection rejects every write. *)
Definition storeDown : Env :=
  mkEnv (toDataURL calm) (initialize calm) (sendMessage calm)
        (logout calm) (destroy calm)
        (fun _ => Rejected "MongoNetworkError")
        (deleteMany calm).

(** The provider rejects every [logout]. *)
Definition logoutFails : Env :=
  mkEnv (toDataURL calm) (initialize calm) (sendMessage calm)
        (fun _ => Rejected "Protocol error: Session closed")
        (destroy calm) (create calm) (deleteMany calm).

(** The provider rejects what client [bad] sends. *)
Definition sendFailsFor (bad : nat) : Env :=
  mkEnv (toDataURL calm) (initialize calm)
        (fun c chatId message =>
           if Nat.eqb c bad then Rejected "Evaluation failed"
           else sendMessage calm c chatId message)
        (logout calm) (destroy calm) (create calm) (deleteMany calm).

(** Session [a] ready, then given a new QR code. *)
Definition readyThenQr : World :=
  run calm [GetQrView "a"; Emits 0 EvReady; Emits 0 (EvQr "2@abc")] emptyWorld.

(** Session [a] ready. *)
Definition oneReady : World :=
  run calm [GetQrView "a"; Emits 0 (EvQr "2@abc"); Emits 0 EvReady] emptyWorld.

(** Sessions [A] ready, [B] disconnected, [C] ready. *)
Definition threeSessions : World :=
  run calm [GetQrView "A"; GetQrView "B"; GetQrView "C";
            Emits 0 EvReady; Emits 1 EvDisconnected; Emits 2 EvReady]
      emptyWorld.

(** ** The statements under test *)

(** Ascending order of the array indices. *)
Definition byIndex (a b : N * string) : Prop := (fst a <= fst b)%N.

(** [c] occurs in [s]. *)
Fixpoint occurs (c : ascii) (s : string) : bool :=
  match s with
  | EmptyString => false
  | String c' rest => Ascii.eqb c' c || occurs c rest
  end.

(** The inbound message is published although the store rejected it. *)
Definition publishesDespiteStoreFailure (env : Env)
  (sessionId msgFrom msgBody : string) (now : N) (w : World) : Prop :=
  let from := replaceFirst "@c.us" msgFrom in
  forall err,
    create env (mkMessage sessionId from sessionId msgBody now)
    = Rejected err ->
    In (RoomEmit sessionId (PushMessage from msgBody now))
       (trace (snd (on_message env sessionId msgFrom msgBody now w))).

(** A send the provider accepted is persisted and answered with the
    provider's message id. *)
Definition sendPersistsAndReturns (env : Env)
  (sessionId number message : string) (now : N) (w : World) : Prop :=
  forall s messageId,
    get (sessions w) sessionId = Some (Some s) ->
    isReady s = true ->
    sendMessage env (client s) (number ++ "@c.us") message
    = Resolved messageId ->
    let out := post_api_send env sessionId number message now w in
    fst out = Resolved (json (BodySent messageId))
    /\ messages (snd out)
       = (messages w ++ [mkMessage sessionId "admin" number message now])%list.

(** A join on a ready session is answered with the ready signal. *)
Definition replaysReady (env : Env) (socket : nat) (sessionId : string)
  (w : World) : Prop :=
  forall s,
    get (sessions w) sessionId = Some (Some s) ->
    stateOf (Some s) = Ready ->
    In (SocketEmit socket PushReady)
       (trace (snd (on_join env socket sessionId w))).

(** What one action can do to the [sessions] object. *)
Inductive Touched (P : Entry -> Prop) (o : Obj Entry) : Obj Entry -> Prop :=
| Untouched : Touched P o o
| Assigned sessionId e : P e -> Touched P o (set o sessionId e)
| Deleted sessionId : Touched P o (delete o sessionId).

(** A value that is not a ready session holding a QR code. *)
Definition noQrIfReady (e : Entry) : Prop :=
  forall s, e = Some s -> isReady s = true -> latestQR s = None.

(** ** Message history *)

(** [Message.find({ sessionId })] *)
Definition Message_find (id : string) (docs : list MessageDoc) : list MessageDoc :=
  filter (fun d => String.eqb (sessionId d) id) docs.

(** [.sort({ time: -1 })].  Which of two documents of one time comes first
    is the store's choice; nothing below depends on it. *)
Fixpoint insertByTime (d : MessageDoc) (l : list MessageDoc)
  : list MessageDoc :=
  match l with
  | [] => [d]
  | d' :: rest =>
      if (time d' <=? time d)%N then d :: l else d' :: insertByTime d rest
  end.

Definition sortByTimeDesc (docs : list MessageDoc) : list MessageDoc :=
  fold_right insertByTime [] docs.

(** [GET /api/messages/:sessionId]: the array it answers. *)
Definition get_api_messages (id : string) : Async (list MessageDoc) :=
  fun w => (Resolved (sortByTimeDesc (Message_find id (messages w))), w).

Definition newerFirst (a b : MessageDoc) : Prop := (time b <= time a)%N.

(** [s.includes(pat)] *)
Fixpoint includes (pat s : string) : bool :=
  String.prefix pat s
  || match s with
     | EmptyString => false
     | String _ rest => includes pat rest
     end.

(** ** How a handler can move the world *)

(** What one action does to [sessions] and to the list of clients: nothing;
    a new value for the fields of a live session, its client kept; [null]
    for a key; the deletion of a key; or a new session with a new client. *)
Inductive Moved (w w' : World) : Prop :=
| MovedNot :
    sessions w' = sessions w -> clients w' = clients w -> Moved w w'
| MovedFields id s s' :
    get (sessions w) id = Some (Some s) ->
    client s' = client s ->
    sessions w' = set (sessions w) id (Some s') ->
    clients w' = clients w ->
    Moved w w'
| MovedNull id :
    sessions w' = set (sessions w) id None ->
    clients w' = clients w ->
    Moved w w'
| MovedDeleted id :
    sessions w' = delete (sessions w) id ->
    clients w' = clients w ->
    Moved w w'
| MovedCreated id :
    hasClient (get (sessions w) id) = false ->
    sessions w' = set (sessions w) id
                      (Some (mkSession (length (clients w)) None false)) ->
    clients w' = (clients w ++ [id])%list ->
    Moved w w'.

(** The collection and the trace are only ever added to. *)
Definition Grown (w w' : World) : Prop :=
  (exists docs, messages w' = messages w ++ docs)%list
  /\ (exists effects, trace w' = trace w ++ effects)%list.

(** Every live session holds a client that was made for its key. *)
Definition clientsMatch (w : World) : Prop :=
  forall id s,
    get (sessions w) id = Some (Some s) ->
    nth_error (clients w) (client s) = Some id.


(** ** The single-session server

    The earlier server of the repository ([src/unnamed/part_000], second
    file): one client, kept with [latestQR] and [isReady] in three variables
    of the module, and events emitted to every socket. *)

Module SingleSession.

Record MessageDoc := mkMessage {
  from : string;
  to : string;
  text : string;
  time : N
}.

Inductive Push :=
| PushQr (imageUrl : string)
| PushReady
| PushAuthFailure (msg : string)
| PushMessage (from message : string) (time : N)
| PushDisconnected.

Inductive Effect :=
| ConnectionAsPromise
| StoreInit
| NewClient (c : nat) (clientId : string)
| ClientInitialize (c : nat)
| ClientSendMessage (c : nat) (chatId message : string)
| MessageCreate (doc : MessageDoc)
| IoEmit (p : Push).

Record Env := mkEnv {
  asPromise : Settled unit;
  init : Settled unit;
  toDataURL : string -> Settled string;
  initialize : nat -> Settled unit;
  sendMessage : nat -> string -> string -> Settled string;
  create : MessageDoc -> Settled unit
}.

(** [let client; let latestQR = null; let isReady = false;], the number of
    clients constructed so far, the [Message] collection and the trace. *)
Record World := mkWorld {
  client : option nat;
  latestQR : option string;
  isReady : bool;
  constructed : nat;
  messages : list MessageDoc;
  trace : list Effect
}.

Definition start : World := mkWorld None None false 0 [] [].

Definition Async (A : Type) := World -> Settled A * World.

Definition ret {A} (a : A) : Async A := fun w => (Resolved a, w).

Definition throw {A} (err : string) : Async A := fun w => (Rejected err, w).

Definition bind {A B} (m : Async A) (k : A -> Async B) : Async B :=
  fun w =>
    match m w with
    | (Resolved a, w') => k a w'
    | (Rejected err, w') => (Rejected err, w')
    end.

Definition tryCatch {A} (m : Async A) (h : string -> Async A) : Async A :=
  fun w =>
    match m w with
    | (Resolved a, w') => (Resolved a, w')
    | (Rejected err, w') => h err w'
    end.

Declare Scope single_scope.
Notation "x <- m ;; k" := (bind m (fun x => k))
  (at level 61, m at next level, right associativity) : single_scope.
Notation "m ;;; k" := (bind m (fun _ => k))
  (at level 61, right associativity) : single_scope.
Local Open Scope single_scope.

Definition call {A} (e : Effect) (answer : Settled A) : Async A :=
  fun w =>
    (answer,
     mkWorld (client w) (latestQR w) (isReady w) (constructed w) (messages w)
             (trace w ++ [e])).

Definition emit (p : Push) : Async unit := call (IoEmit p) (Resolved tt).

Definition read : Async World := fun w => (Resolved w, w).

Definition setClient (c : option nat) : Async unit :=
  fun w =>
    (Resolved tt,
     mkWorld c (latestQR w) (isReady w) (constructed w) (messages w) (trace w)).

Definition setLatestQR (qr : option string) : Async unit :=
  fun w =>
    (Resolved tt,
     mkWorld (client w) qr (isReady w) (constructed w) (messages w) (trace w)).

Definition setIsReady (b : bool) : Async unit :=
  fun w =>
    (Resolved tt,
     mkWorld (client w) (latestQR w) b (constructed w) (messages w) (trace w)).

(** [new Client(...)] *)
Definition newClient (clientId : string) : Async nat :=
  fun w =>
    (Resolved (constructed w),
     mkWorld (client w) (latestQR w) (isReady w) (S (constructed w))
             (messages w) (trace w ++ [NewClient (constructed w) clientId])).

Definition Message_create (env : Env) (doc : MessageDoc) : Async unit :=
  fun w =>
    match create env doc with
    | Resolved tt =>
        (Resolved tt,
         mkWorld (client w) (latestQR w) (isReady w) (constructed w)
                 (messages w ++ [doc]) (trace w ++ [MessageCreate doc]))
    | Rejected err =>
        (Rejected err,
         mkWorld (client w) (latestQR w) (isReady w) (constructed w)
                 (messages w) (trace w ++ [MessageCreate doc]))
    end.

Section Server.
Variable env : Env.

(** [async function setupWhatsApp(io, sessionId)] *)
Definition setupWhatsApp (sessionId : string) : Async unit :=
  w <- read ;;
  match client w with
  | Some _ => ret tt
  | None =>
      call ConnectionAsPromise (asPromise env) ;;;
      call StoreInit (init env) ;;;
      c <- newClient sessionId ;;
      setClient (Some c) ;;;
      call (ClientInitialize c) (initialize env c)
  end.

(** [client.on("qr", async (qr) => { try ... catch ... })] *)
Definition on_qr (qr : string) : Async unit :=
  tryCatch
    (imageUrl <- (fun w => (toDataURL env qr, w)) ;;
     setLatestQR (Some imageUrl) ;;;
     emit (PushQr imageUrl))
    (fun _ => setLatestQR None).

(** [client.on("ready", ...)] *)
Definition on_ready : Async unit :=
  setIsReady true ;;;
  setLatestQR None ;;;
  emit PushReady.

(** [client.on("auth_failure", ...)] *)
Definition on_auth_failure (msg : string) : Async unit :=
  emit (PushAuthFailure msg).

(** [client.on("message", async (msg) => ...)] *)
Definition on_message (sessionId msgFrom msgBody : string) (now : N)
  : Async unit :=
  let from := replaceFirst "@c.us" msgFrom in
  Message_create env (mkMessage from sessionId msgBody now) ;;;
  emit (PushMessage from msgBody now).

(** [client.on("disconnected", ...)] *)
Definition on_disconnected : Async unit :=
  setIsReady false ;;;
  setLatestQR None ;;;
  setClient None ;;;
  emit PushDisconnected.

Definition getLatestQR (w : World) : option string := latestQR w.

Definition isWhatsAppConnected (w : World) : bool := isReady w.

(** The chat id [sendMessageToWhatsApp] sends to. *)
Definition chatIdOf (number : string) : string :=
  if includes "@c.us" number then number else number ++ "@c.us".

(** [async function sendMessageToWhatsApp(number, message)]: the serialized
    id of the message sent. *)
Definition sendMessageToWhatsApp (number message : string) (now : N)
  : Async string :=
  w <- read ;;
  match client w with
  | Some c =>
      if negb (isReady w) then throw "WhatsApp not ready"
      else
        let chatId := chatIdOf number in
        sent <- call (ClientSendMessage c chatId message)
                     (sendMessage env c chatId message) ;;
        Message_create env (mkMessage "admin" number message now) ;;;
        ret sent
  | None => throw "WhatsApp not ready"
  end.

(** [GET /whatsapp/qr] *)
Definition get_whatsapp_qr : Async Response :=
  w <- read ;;
  let qr := getLatestQR w in
  if truthy qr then ret (json (BodyQr (stringOf qr)))
  else ret (mkResponse 404 (BodyMessage "QR not ready")).

(** [GET /whatsapp/status] *)
Definition get_whatsapp_status : Async Response :=
  w <- read ;;
  ret (json (BodyReady (isWhatsAppConnected w))).

(** [POST /whatsapp/send-test]; a field the body lacks is [None]. *)
Definition post_whatsapp_send_test (number message : option string) (now : N)
  : Async Response :=
  if negb (truthy number) || negb (truthy message)
  then ret (mkResponse 400 (BodyError "Missing number or message"))
  else
    tryCatch
      (id <- sendMessageToWhatsApp (stringOf number) (stringOf message) now ;;
       ret (json (BodySent id)))
      (fun err => ret (mkResponse 500 (BodyError err))).

End Server.

(** Every outside call resolves. *)
Definition calm : Env :=
  mkEnv (Resolved tt) (Resolved tt)
        (fun qr => Resolved ("data:image/png;base64," ++ qr))
        (fun _ => Resolved tt)
        (fun _ chatId _ => Resolved ("true_" ++ chatId ++ "_3EB0"))
        (fun _ => Resolved tt).

(** The QR code cannot be rendered. *)
Definition noImage : Env :=
  mkEnv (Resolved tt) (Resolved tt) (fun _ => Rejected "No input text")
        (initialize calm) (sendMessage calm) (create calm).

(** Connected and ready. *)
Definition connected : World :=
  snd (on_ready (snd (setupWhatsApp calm "admin" start))).

End SingleSession.

(** ** The map as the engine keeps it, and the handlers await by await

    The definitions above take [sessions] as the list of its own
    properties and run a handler in one go.  This module refines both.
    [const sessions = {}] is an ordinary object: a name it does not own is
    looked up on its prototype, which is [Object.prototype] until an
    assignment to [sessions["__proto__"]] replaces it, and which supplies
    [constructor], [toString] and the like.  And a handler runs without
    interruption only up to its next [await]: what it does afterwards is a
    task that the event loop resumes when the awaited call has settled,
    other handlers running in between.  The text of an engine's error
    message is V8's. *)

Module EventLoop.

(** The functions every object inherits from [Object.prototype]; the
    accessor [__proto__] comes besides. *)
Definition builtins : list string :=
  ["constructor"; "__defineGetter__"; "__defineSetter__"; "hasOwnProperty";
   "__lookupGetter__"; "__lookupSetter__"; "isPrototypeOf";
   "propertyIsEnumerable"; "toString"; "valueOf"; "toLocaleString"].

Definition isBuiltin (name : string) : bool :=
  existsb (String.eqb name) builtins.

(** Objects other than sessions that [sessions[id]] can evaluate to: an
    inherited function, [Object.prototype] itself, and, when a session is the
    prototype of the map, the client it holds. *)
Inductive Foreign :=
| Function (name : string)
| ClientObject (c : nat)
| ObjectPrototype.

Definition sameObject (a b : Foreign) : bool :=
  match a, b with
  | Function n, Function m => String.eqb n m
  | ClientObject c, ClientObject d => Nat.eqb c d
  | ObjectPrototype, ObjectPrototype => true
  | _, _ => false
  end.

(** What the handlers have written onto such an object: [latestQR], a
    string or [null], once it has been assigned; [isReady], which is only
    ever assigned [true]; and which of the two was created first. *)
Record Extra := mkExtra {
  xLatestQR : option (option string);
  xIsReady : bool;
  xIsReadyFirst : bool
}.

Definition noExtra : Extra := mkExtra None false false.

(** The prototype of [sessions]. *)
Inductive Proto :=
| ProtoObject
| ProtoSession (s : Session)
| ProtoNull.

(** The own properties of [sessions] with the rest of the process state,
    the prototype of [sessions], and what has been written onto foreign
    objects. *)
Record Realm := mkRealm {
  world : World;
  proto : Proto;
  foreign : list (Foreign * Extra)
}.

Definition start : Realm := mkRealm emptyWorld ProtoObject [].

Definition own (r : Realm) : Obj Entry := sessions (world r).

Definition setOwn (r : Realm) (o : Obj Entry) : Realm :=
  mkRealm (withSessions (world r) o) (proto r) (foreign r).

Definition log (e : Effect) (r : Realm) : Realm :=
  mkRealm (record e (world r)) (proto r) (foreign r).

Definition extraOf (r : Realm) (o : Foreign) : Extra :=
  match List.find (fun p => sameObject (fst p) o) (foreign r) with
  | Some p => snd p
  | None => noExtra
  end.

Definition setExtra (r : Realm) (o : Foreign) (x : Extra) : Realm :=
  mkRealm (world r) (proto r)
    ((o, x) :: filter (fun p => negb (sameObject (fst p) o)) (foreign r)).

(** Where a session object is kept. *)
Inductive Place :=
| Own
| Prototype.

(** What [sessions[id]] and the fields read from it can be. *)
Inductive Value :=
| VUndefined
| VNull
| VSession (p : Place) (s : Session)
| VObject (o : Foreign)
| VString (s : string)
| VBool (b : bool).

Definition ofLatestQR (x : option (option string)) : Value :=
  match x with
  | Some (Some s) => VString s
  | Some None => VNull
  | None => VUndefined
  end.

(** [Object.prototype[name]] *)
Definition objectPrototypeGet (r : Realm) (name : string) : Value :=
  if isBuiltin name then VObject (Function name)
  else if String.eqb name "latestQR"
  then ofLatestQR (xLatestQR (extraOf r ObjectPrototype))
  else if String.eqb name "isReady"
  then if xIsReady (extraOf r ObjectPrototype) then VBool true else VUndefined
  else VUndefined.

(** A name [sessions] does not own, looked up along its prototype chain;
    the getter of [__proto__] answers the prototype of [sessions]. *)
Definition inherited (r : Realm) (name : string) : Value :=
  match proto r with
  | ProtoNull => VUndefined
  | ProtoObject =>
      if String.eqb name "__proto__" then VObject ObjectPrototype
      else objectPrototypeGet r name
  | ProtoSession s =>
      if String.eqb name "client" then VObject (ClientObject (client s))
      else if String.eqb name "latestQR"
      then match latestQR s with Some q => VString q | None => VNull end
      else if String.eqb name "isReady" then VBool (isReady s)
      else if String.eqb name "__proto__" then VSession Prototype s
      else objectPrototypeGet r name
  end.

(** [sessions[id]] *)
Definition lookup (r : Realm) (id : string) : Value :=
  match get (own r) id with
  | Some (Some s) => VSession Own s
  | Some None => VNull
  | None => inherited r id
  end.

(** [v?.client], when it is a client.  The provider's client object is
    taken to have no property [client], [latestQR] or [isReady] of its own. *)
Definition clientOf (v : Value) : option nat :=
  match v with
  | VSession _ s => Some (client s)
  | _ => None
  end.

Definition pollutedLatestQR (r : Realm) : option string :=
  match xLatestQR (extraOf r ObjectPrototype) with
  | Some q => q
  | None => None
  end.

(** [v?.latestQR]: the string, [None] for [null] and [undefined]. *)
Definition latestQROf (r : Realm) (v : Value) : option string :=
  match v with
  | VUndefined | VNull => None
  | VSession _ s => latestQR s
  | VObject ObjectPrototype => pollutedLatestQR r
  | VObject o =>
      match xLatestQR (extraOf r o) with
      | Some q => q
      | None => pollutedLatestQR r
      end
  | VString _ | VBool _ => pollutedLatestQR r
  end.

(** [v?.isReady], as a condition. *)
Definition isReadyOf (r : Realm) (v : Value) : bool :=
  match v with
  | VUndefined | VNull => false
  | VSession _ s => isReady s
  | VObject o => xIsReady (extraOf r o) || xIsReady (extraOf r ObjectPrototype)
  | VString _ | VBool _ => xIsReady (extraOf r ObjectPrototype)
  end.

(** [!!v] *)
Definition truthyValue (v : Value) : bool :=
  match v with
  | VUndefined | VNull => false
  | VSession _ _ | VObject _ => true
  | VString s => negb (String.eqb s EmptyString)
  | VBool b => b
  end.

(** [sessions[id] = v] for a session or [null]: the setter of [__proto__]
    takes it when [Object.prototype] is still on the chain and [sessions] has
    no property of that name of its own. *)
Definition assign (r : Realm) (id : string) (v : Entry) : Realm :=
  match get (own r) id, proto r with
  | None, (ProtoObject | ProtoSession _) =>
      if String.eqb id "__proto__"
      then mkRealm (world r)
             (match v with Some s => ProtoSession s | None => ProtoNull end)
             (foreign r)
      else setOwn r (set (own r) id v)
  | _, _ => setOwn r (set (own r) id v)
  end.

(** [delete sessions[id]] *)
Definition remove (r : Realm) (id : string) : Realm :=
  setOwn r (delete (own r) id).

Definition putSession (r : Realm) (id : string) (p : Place) (s : Session)
  : Realm :=
  match p with
  | Own => setOwn r (set (own r) id (Some s))
  | Prototype => mkRealm (world r) (ProtoSession s) (foreign r)
  end.

(** [sessions[id].latestQR = v]; the file is not in strict mode, so an
    assignment to a property of a string or a boolean is dropped. *)
Definition setLatestQR (id : string) (v : option string) (r : Realm)
  : Settled unit * Realm :=
  match lookup r id with
  | VUndefined =>
      (Rejected "Cannot set properties of undefined (setting 'latestQR')", r)
  | VNull =>
      (Rejected "Cannot set properties of null (setting 'latestQR')", r)
  | VSession p s =>
      (Resolved tt, putSession r id p (mkSession (client s) v (isReady s)))
  | VObject o =>
      (Resolved tt,
       setExtra r o (mkExtra (Some v) (xIsReady (extraOf r o))
                             (xIsReadyFirst (extraOf r o))))
  | VString _ | VBool _ => (Resolved tt, r)
  end.

(** [sessions[id].isReady = true] *)
Definition setIsReady (id : string) (r : Realm) : Settled unit * Realm :=
  match lookup r id with
  | VUndefined =>
      (Rejected "Cannot set properties of undefined (setting 'isReady')", r)
  | VNull =>
      (Rejected "Cannot set properties of null (setting 'isReady')", r)
  | VSession p s =>
      (Resolved tt, putSession r id p (mkSession (client s) (latestQR s) true))
  | VObject o =>
      (Resolved tt,
       setExtra r o
         (if xIsReady (extraOf r o) then extraOf r o
          else mkExtra (xLatestQR (extraOf r o)) true
                 (match xLatestQR (extraOf r o) with
                  | None => true
                  | Some _ => false
                  end)))
  | VString _ | VBool _ => (Resolved tt, r)
  end.

(** The names [for (k in sessions)] takes from the prototype chain: the
    fields of a session that is the prototype, or what has been written onto
    [Object.prototype]; a name [sessions] owns is not taken twice. *)
Definition writtenNames (x : Extra) : list string :=
  match xLatestQR x, xIsReady x with
  | None, false => []
  | Some _, false => ["latestQR"]
  | None, true => ["isReady"]
  | Some _, true =>
      if xIsReadyFirst x then ["isReady"; "latestQR"]
      else ["latestQR"; "isReady"]
  end.

Definition inheritedNames (r : Realm) : list string :=
  match proto r with
  | ProtoNull => []
  | ProtoObject => writtenNames (extraOf r ObjectPrototype)
  | ProtoSession _ => ["client"; "latestQR"; "isReady"]
  end.

Definition isOwn (r : Realm) (id : string) : bool :=
  match get (own r) id with Some _ => true | None => false end.

Definition forInKeys (r : Realm) : list string :=
  (ownKeys (own r)
   ++ filter (fun name => negb (isOwn r name)) (inheritedNames r))%list.

(** Whether a key taken when the loop began is still there to be visited,
    as V8 checks before each round. *)
Definition stillEnumerable (r : Realm) (id : string) : bool :=
  isOwn r id || existsb (String.eqb id) (inheritedNames r).

(** A handler suspended at an [await], with what the awaited call settles
    to. *)
Inductive Task :=
| QrViewInitializing (sessionId : string) (initialized : Settled unit)
| JoinInitializing (socket : nat) (sessionId : string)
    (initialized : Settled unit)
| QrRendering (sessionId : string) (rendered : Settled string)
| MessageCreating (sessionId from text : string) (time : N)
    (created : Settled unit)
| LoggingOut (sessionId : string) (c : nat) (loggedOut : Settled unit)
| Destroying (sessionId : string) (destroyed : Settled unit)
| Deleting (sessionId : string) (deleted : Settled unit)
| Sending (sessionId number message : string) (sent : Settled string)
| SendCreating (messageId : string) (created : Settled unit)
| Broadcasting (number message sessionId : string) (sent : Settled string)
    (rest : list string) (results : list BroadcastResult).

(** How an uninterrupted piece of a handler ends: at an [await], with the
    response, with nothing to answer, or by throwing. *)
Inductive Outcome :=
| Suspended (t : Task)
| Answered (r : Response)
| Returned
| Threw (err : string).

Section Server.
Variable env : Env.

(** [setupSession] up to its [await]; the client whose initialization is
    pending, if one was made. *)
Definition setupSession_start (sessionId : string) (r : Realm)
  : option nat * Realm :=
  match clientOf (lookup r sessionId) with
  | Some _ => (None, r)
  | None =>
      let c := length (clients (world r)) in
      let r1 := assign r sessionId (Some (mkSession c None false)) in
      (Some c,
       mkRealm
         (mkWorld (own r1) (clients (world r) ++ [sessionId])
                  (messages (world r))
                  (trace (world r)
                   ++ [NewClient c sessionId; ClientInitialize c]))
         (proto r1) (foreign r1))
  end.

(** [Message.create(doc)], as called: the document is in the collection
    when the write resolves. *)
Definition createMessage (doc : MessageDoc) (r : Realm) : Realm :=
  match create env doc with
  | Resolved _ =>
      mkRealm
        (mkWorld (own r) (clients (world r)) (messages (world r) ++ [doc])
                 (trace (world r) ++ [MessageCreate doc]))
        (proto r) (foreign r)
  | Rejected _ => log (MessageCreate doc) r
  end.

(** The page of [GET /qr/:sessionId]. *)
Definition qrViewAnswer (sessionId : string) (r : Realm) : Response :=
  let qr := latestQROf r (lookup r sessionId) in
  if negb (truthy qr) then json (BodyText "QR not ready")
  else
    json (BodyText ("<html><body><h2>Scan QR for " ++ sessionId
                    ++ "</h2><img src=" ++ quote ++ stringOf qr ++ quote
                    ++ " width=" ++ quote ++ "300" ++ quote
                    ++ "/></body></html>")).

(** [GET /qr/:sessionId] *)
Definition get_qr_view (sessionId : string) (r : Realm) : Outcome * Realm :=
  match setupSession_start sessionId r with
  | (Some c, r1) =>
      (Suspended (QrViewInitializing sessionId (initialize env c)), r1)
  | (None, r1) => (Answered (qrViewAnswer sessionId r1), r1)
  end.

(** The replay at the end of [socket.on("join", ...)]. *)
Definition replayTo (socket : nat) (sessionId : string) (r : Realm) : Realm :=
  let qr := latestQROf r (lookup r sessionId) in
  if truthy qr then log (SocketEmit socket (PushQr (stringOf qr))) r
  else if isReadyOf r (lookup r sessionId)
       then log (SocketEmit socket PushReady) r
       else r.

(** [socket.on("join", async (sessionId) => ...)] *)
Definition on_join (socket : nat) (sessionId : string) (r : Realm)
  : Outcome * Realm :=
  match setupSession_start sessionId (log (SocketJoin socket sessionId) r) with
  | (Some c, r1) =>
      (Suspended (JoinInitializing socket sessionId (initialize env c)), r1)
  | (None, r1) => (Returned, replayTo socket sessionId r1)
  end.

(** [client.on("qr", ...)] up to [await qrcode.toDataURL(qr)]. *)
Definition on_qr (sessionId qr : string) (r : Realm) : Outcome * Realm :=
  (Suspended (QrRendering sessionId (toDataURL env qr)), r).

(** The rest of the [qr] handler. *)
Definition on_qr_rendered (sessionId imageUrl : string) (r : Realm)
  : Outcome * Realm :=
  match setLatestQR sessionId (Some imageUrl) r with
  | (Rejected err, r1) => (Threw err, r1)
  | (Resolved _, r1) => (Returned, log (RoomEmit sessionId (PushQr imageUrl)) r1)
  end.

(** [client.on("ready", ...)] *)
Definition on_ready (sessionId : string) (r : Realm) : Outcome * Realm :=
  match setIsReady sessionId r with
  | (Rejected err, r1) => (Threw err, r1)
  | (Resolved _, r1) =>
      match setLatestQR sessionId None r1 with
      | (Rejected err, r2) => (Threw err, r2)
      | (Resolved _, r2) => (Returned, log (RoomEmit sessionId PushReady) r2)
      end
  end.

(** [client.on("message", ...)] up to [await Message.create(...)]. *)
Definition on_message (sessionId msgFrom msgBody : string) (now : N)
  (r : Realm) : Outcome * Realm :=
  let from := replaceFirst "@c.us" msgFrom in
  let doc := mkMessage sessionId from sessionId msgBody now in
  (Suspended (MessageCreating sessionId from msgBody now (create env doc)),
   createMessage doc r).

(** [client.on("disconnected", ...)] *)
Definition on_disconnected (sessionId : string) (r : Realm)
  : Outcome * Realm :=
  (Returned, log (RoomEmit sessionId PushDisconnected) (assign r sessionId None)).

Definition handler (sessionId : string) (ev : ProviderEvent) (r : Realm)
  : Outcome * Realm :=
  match ev with
  | EvQr qr => on_qr sessionId qr r
  | EvAuthenticated => (Returned, r)
  | EvReady => on_ready sessionId r
  | EvRemoteSessionSaved => (Returned, r)
  | EvMessage f b now => on_message sessionId f b now r
  | EvDisconnected => on_disconnected sessionId r
  end.

(** [GET /api/qr/:sessionId] *)
Definition get_api_qr (sessionId : string) (r : Realm) : Outcome * Realm :=
  let qr := latestQROf r (lookup r sessionId) in
  (Answered (if truthy qr then json (BodyQr (stringOf qr))
             else mkResponse 404 (BodyMessage "QR not ready")), r).

(** [GET /api/status/:sessionId] *)
Definition get_api_status (sessionId : string) (r : Realm)
  : Outcome * Realm :=
  (Answered (json (BodyReady (isReadyOf r (lookup r sessionId)))), r).

(** [GET /api/sessions]: [Object.keys] gives the own keys only. *)
Definition get_api_sessions (r : Realm) : Outcome * Realm :=
  (Answered (json (BodySessions
     (map (fun sessionId =>
             mkInfo sessionId
                    (isReadyOf r (lookup r sessionId))
                    (truthy (latestQROf r (lookup r sessionId))))
          (ownKeys (own r))))), r).

(** [GET /api/logout/:sessionId] up to [await session.client.logout()]. *)
Definition get_api_logout (sessionId : string) (r : Realm)
  : Outcome * Realm :=
  match clientOf (lookup r sessionId) with
  | Some c =>
      (Suspended (LoggingOut sessionId c (logout env c)),
       log (ClientLogout c) r)
  | None => (Answered (mkResponse 400 (BodyError "Session not found")), r)
  end.

(** [DELETE /api/session/:sessionId] up to [await ... deleteMany(...)]. *)
Definition delete_api_session (sessionId : string) (r : Realm)
  : Outcome * Realm :=
  (Suspended (Deleting sessionId (deleteMany env sessionId)),
   log (SessionsDeleteMany sessionId) r).

(** The rest of the deletion once the store has accepted:
    [sessions[sessionId]?.client?.destroy()], not awaited, and the
    [delete]. *)
Definition delete_api_session_deleted (sessionId : string) (r : Realm)
  : Outcome * Realm :=
  let r1 :=
    match clientOf (lookup r sessionId) with
    | Some c => log (ClientDestroy c) r
    | None => r
    end in
  (Answered (json (BodySuccess (sessionId ++ " session deleted"))),
   remove r1 sessionId).

(** [POST /api/send] up to [await session.client.sendMessage(...)]. *)
Definition post_api_send (sessionId number message : string) (r : Realm)
  : Outcome * Realm :=
  let session := lookup r sessionId in
  if negb (truthyValue session) || negb (isReadyOf r session)
  then (Answered (mkResponse 400 (BodyError "Session not ready")), r)
  else
    let chatId := number ++ "@c.us" in
    match clientOf session with
    | Some c =>
        (Suspended (Sending sessionId number message
                            (sendMessage env c chatId message)),
         log (ClientSendMessage c chatId message) r)
    | None =>
        (Answered (mkResponse 500 (BodyError
           "Cannot read properties of undefined (reading 'sendMessage')")),
         r)
    end.

(** The rounds of [for (const sessionId in sessions)] from the keys still
    to visit, up to the next [await] or to [res.json(results)]. *)
Fixpoint broadcastFrom (number message : string) (keys : list string)
  (results : list BroadcastResult) (r : Realm) : Outcome * Realm :=
  match keys with
  | [] => (Answered (json (BodyResults results)), r)
  | sessionId :: rest =>
      if negb (stillEnumerable r sessionId)
      then broadcastFrom number message rest results r
      else
        let session := lookup r sessionId in
        if isReadyOf r session then
          match clientOf session with
          | Some c =>
              (Suspended (Broadcasting number message sessionId
                            (sendMessage env c (number ++ "@c.us") message)
                            rest results),
               log (ClientSendMessage c (number ++ "@c.us") message) r)
          | None =>
              broadcastFrom number message rest
                (results
                 ++ [ResultFailed sessionId
                       "Cannot read properties of undefined (reading 'sendMessage')"])
                r
          end
        else
          broadcastFrom number message rest
            (results ++ [ResultFailed sessionId "Session not ready"]) r
  end.

(** [POST /api/broadcast] *)
Definition post_api_broadcast (number message : string) (r : Realm)
  : Outcome * Realm :=
  broadcastFrom number message (forInKeys r) [] r.

(** A handler begins. *)
Definition begin (a : Action) (r : Realm) : Outcome * Realm :=
  match a with
  | Emits c ev =>
      match nth_error (clients (world r)) c with
      | Some sessionId => handler sessionId ev r
      | None => (Returned, r)
      end
  | GetQrView sessionId => get_qr_view sessionId r
  | GetApiQr sessionId => get_api_qr sessionId r
  | GetApiStatus sessionId => get_api_status sessionId r
  | GetApiSessions => get_api_sessions r
  | GetApiLogout sessionId => get_api_logout sessionId r
  | DeleteApiSession sessionId => delete_api_session sessionId r
  | PostApiSend sessionId number message _ =>
      post_api_send sessionId number message r
  | PostApiBroadcast number message => post_api_broadcast number message r
  | Join socket sessionId => on_join socket sessionId r
  end.

(** A suspended handler goes on, the awaited call having settled; [now] is
    what [new Date()] reads then. *)
Definition resume (t : Task) (now : N) (r : Realm) : Outcome * Realm :=
  match t with
  | QrViewInitializing sessionId (Resolved _) =>
      (Answered (qrViewAnswer sessionId r), r)
  | QrViewInitializing _ (Rejected err) => (Threw err, r)
  | JoinInitializing socket sessionId (Resolved _) =>
      (Returned, replayTo socket sessionId r)
  | JoinInitializing _ _ (Rejected err) => (Threw err, r)
  | QrRendering sessionId (Resolved imageUrl) =>
      on_qr_rendered sessionId imageUrl r
  | QrRendering _ (Rejected err) => (Threw err, r)
  | MessageCreating sessionId from text time (Resolved _) =>
      (Returned, log (RoomEmit sessionId (PushMessage from text time)) r)
  | MessageCreating _ _ _ _ (Rejected err) => (Threw err, r)
  | LoggingOut sessionId c (Resolved _) =>
      (Suspended (Destroying sessionId (destroy env c)),
       log (ClientDestroy c) r)
  | LoggingOut _ _ (Rejected err) => (Threw err, r)
  | Destroying sessionId (Resolved _) =>
      (Answered (json (BodySuccess (sessionId ++ " logged out"))),
       assign r sessionId None)
  | Destroying _ (Rejected err) => (Threw err, r)
  | Deleting sessionId (Resolved _) => delete_api_session_deleted sessionId r
  | Deleting _ (Rejected err) =>
      (Answered (mkResponse 500 (BodyError err)), r)
  | Sending sessionId number message (Resolved messageId) =>
      let doc := mkMessage sessionId "admin" number message now in
      (Suspended (SendCreating messageId (create env doc)),
       createMessage doc r)
  | Sending _ _ _ (Rejected err) =>
      (Answered (mkResponse 500 (BodyError err)), r)
  | SendCreating messageId (Resolved _) =>
      (Answered (json (BodySent messageId)), r)
  | SendCreating _ (Rejected err) =>
      (Answered (mkResponse 500 (BodyError err)), r)
  | Broadcasting number message sessionId (Resolved messageId) rest results =>
      broadcastFrom number message rest
        (results ++ [ResultSent sessionId messageId]) r
  | Broadcasting number message sessionId (Rejected err) rest results =>
      broadcastFrom number message rest
        (results ++ [ResultFailed sessionId err]) r
  end.

(** A handler resumed as soon as each awaited call has settled, nothing
    else running in between. *)
Fixpoint drive (fuel : nat) (now : N) (o : Outcome) (r : Realm)
  : Outcome * Realm :=
  match fuel, o with
  | S n, Suspended t =>
      let (o', r') := resume t now r in drive n now o' r'
  | _, _ => (o, r)
  end.

End Server.

(** The event loop: the realm and the handlers that are suspended. *)
Record Loop := mkLoop {
  realm : Realm;
  pending : list Task
}.

(** A turn of the loop begins a handler or resumes a suspended one. *)
Inductive Turn :=
| Begin (a : Action)
| Resume (i : nat) (now : N).

Fixpoint without {A} (i : nat) (l : list A) : list A :=
  match l, i with
  | [], _ => []
  | _ :: rest, O => rest
  | x :: rest, S j => x :: without j rest
  end.

Definition settle (o : Outcome) (r : Realm) (others : list Task) : Loop :=
  match o with
  | Suspended t => mkLoop r (others ++ [t])
  | _ => mkLoop r others
  end.

Definition turn (env : Env) (t : Turn) (l : Loop) : Loop :=
  match t with
  | Begin a =>
      let (o, r) := begin env a (realm l) in settle o r (pending l)
  | Resume i now =>
      match nth_error (pending l) i with
      | Some task =>
          let (o, r) := resume env task now (realm l) in
          settle o r (without i (pending l))
      | None => l
      end
  end.

Definition play (env : Env) (schedule : list Turn) (l : Loop) : Loop :=
  fold_left (fun l t => turn env t l) schedule l.

Definition boot : Loop := mkLoop start [].

End EventLoop.

(** ** The session state machine of the specification

    The states and the transition table of the specification (section
    4.2), kept beside the code: a run of the event loop is followed on the
    table, each session id having the state the table gives it.  A QR code
    counts as received when the handler stores it; [getOrCreate] puts a new
    session in [Uninitialized]; logout and deletion end a session as the
    lifecycle of the specification says. *)

Module Spec.

Inductive State :=
| Uninitialized
| AwaitingScan
| Authenticating
| Ready
| Terminated.

Inductive Event :=
| qr
| authenticated
| ready
| disconnected.

(** The table; [None] where it has no transition. *)
Definition transition (s : State) (e : Event) : option State :=
  match e, s with
  | qr, (Uninitialized | AwaitingScan) => Some AwaitingScan
  | authenticated, (Uninitialized | AwaitingScan) => Some Authenticating
  | ready, Authenticating => Some Ready
  | disconnected, _ => Some Terminated
  | _, _ => None
  end.

End Spec.

(** The state of each session id the table knows. *)
Definition Phases := Obj Spec.State.

Definition tableEvent (id : string) (e : Spec.Event) (g : Phases)
  : option Phases :=
  match get g id with
  | Some st =>
      match Spec.transition st e with
      | Some st' => Some (set g id st')
      | None => None
      end
  | None => None
  end.

Definition notProto (id : string) (g : option Phases) : option Phases :=
  if String.eqb id "__proto__" then None else g.

(** One turn of the loop followed on the table: the phases after it, or
    [None] when the turn is not one the table has, or works on the id
    [__proto__]. *)
Definition follow (t : EventLoop.Turn) (l : EventLoop.Loop) (g : Phases)
  : option Phases :=
  let r := EventLoop.realm l in
  match t with
  | EventLoop.Begin (Emits c ev) =>
      match nth_error (clients (EventLoop.world r)) c with
      | None => Some g
      | Some id =>
          notProto id
            match ev with
            | EvAuthenticated => tableEvent id Spec.authenticated g
            | EvReady => tableEvent id Spec.ready g
            | EvDisconnected => Some (set g id Spec.Terminated)
            | EvQr _ | EvRemoteSessionSaved | EvMessage _ _ _ => Some g
            end
      end
  | EventLoop.Begin (GetQrView id) | EventLoop.Begin (Join _ id) =>
      notProto id
        match EventLoop.clientOf (EventLoop.lookup r id) with
        | Some _ => Some g
        | None => Some (set g id Spec.Uninitialized)
        end
  | EventLoop.Begin (GetApiLogout id)
  | EventLoop.Begin (DeleteApiSession id) => notProto id (Some g)
  | EventLoop.Begin _ => Some g
  | EventLoop.Resume i _ =>
      match nth_error (EventLoop.pending l) i with
      | Some (EventLoop.QrRendering id (Resolved _)) =>
          notProto id (tableEvent id Spec.qr g)
      | Some (EventLoop.Destroying id (Resolved _)) =>
          notProto id (Some (set g id Spec.Terminated))
      | Some (EventLoop.Deleting id (Resolved _)) =>
          notProto id (Some (delete g id))
      | _ => Some g
      end
  end.

Fixpoint followAll (env : Env) (schedule : list EventLoop.Turn)
  (l : EventLoop.Loop) (g : Phases) : option Phases :=
  match schedule with
  | [] => Some g
  | t :: rest =>
      match follow t l g with
      | Some g' => followAll env rest (EventLoop.turn env t l) g'
      | None => None
      end
  end.

(** What [sessions] owns under the id of a session in a state of the
    table. *)
Definition holds (st : Spec.State) (e : option Entry) : Prop :=
  match st with
  | Spec.Uninitialized =>
      exists s, e = Some (Some s) /\ latestQR s = None /\ isReady s = false
  | Spec.AwaitingScan =>
      exists s, e = Some (Some s) /\ latestQR s <> None /\ isReady s = false
  | Spec.Authenticating =>
      exists s, e = Some (Some s) /\ isReady s = false
  | Spec.Ready =>
      exists s, e = Some (Some s) /\ latestQR s = None /\ isReady s = true
  | Spec.Terminated => e = Some None
  end.

(** The phases cover the ids [sessions] owns, each as [holds] says. *)
Definition tracks (g : Phases) (r : EventLoop.Realm) : Prop :=
  forall id,
    match get g id with
    | Some st => holds st (get (EventLoop.own r) id)
    | None => get (EventLoop.own r) id = None
    end.

(** C3 as stated, on the phases and the realm of one moment. *)
Definition qrOnlyInAwaitingScan (g : Phases) (r : EventLoop.Realm) : Prop :=
  forall id st,
    get g id = Some st ->
    let qr := EventLoop.latestQROf r (EventLoop.lookup r id) in
    (st = Spec.AwaitingScan -> qr <> None)
    /\ (st = Spec.Ready -> qr = None)
    /\ (qr <> None -> st = Spec.AwaitingScan).

(** ** The statements under test, on the event loop *)

(** The realm with some more outside calls in its trace. *)
Definition logs (es : list Effect) (r : EventLoop.Realm) : EventLoop.Realm :=
  EventLoop.mkRealm
    (mkWorld (EventLoop.own r) (clients (EventLoop.world r))
             (messages (EventLoop.world r))
             (trace (EventLoop.world r) ++ es))
    (EventLoop.proto r) (EventLoop.foreign r).

(** What a broadcast owes a key it visits, and the provider call it makes
    for it. *)
Definition owed (env : Env) (number message : string) (r : EventLoop.Realm)
  (id : string) : BroadcastResult :=
  let session := EventLoop.lookup r id in
  if EventLoop.isReadyOf r session then
    match EventLoop.clientOf session with
    | Some c =>
        match sendMessage env c (number ++ "@c.us") message with
        | Resolved messageId => ResultSent id messageId
        | Rejected err => ResultFailed id err
        end
    | None =>
        ResultFailed id
          "Cannot read properties of undefined (reading 'sendMessage')"
    end
  else ResultFailed id "Session not ready".

Definition contacted (number message : string) (r : EventLoop.Realm)
  (id : string) : list Effect :=
  let session := EventLoop.lookup r id in
  if EventLoop.isReadyOf r session then
    match EventLoop.clientOf session with
    | Some c => [ClientSendMessage c (number ++ "@c.us") message]
    | None => []
    end
  else [].

(** A request begun and resumed as soon as each awaited call has settled. *)
Definition alone (env : Env) (fuel : nat) (a : Action) (r : EventLoop.Realm)
  : EventLoop.Outcome * EventLoop.Realm :=
  EventLoop.drive env fuel 0 (fst (EventLoop.begin env a r))
                  (snd (EventLoop.begin env a r)).

Definition broadcastAlone (env : Env) (number message : string)
  (r : EventLoop.Realm) : EventLoop.Outcome * EventLoop.Realm :=
  alone env (length (EventLoop.forInKeys r)) (PostApiBroadcast number message) r.

Definition logoutAlone (env : Env) (id : string) (r : EventLoop.Realm)
  : EventLoop.Outcome * EventLoop.Realm :=
  alone env 2 (GetApiLogout id) r.

Definition deleteAlone (env : Env) (id : string) (r : EventLoop.Realm)
  : EventLoop.Outcome * EventLoop.Realm :=
  alone env 1 (DeleteApiSession id) r.

(** The session ids a broadcast answers, in order. *)
Definition answeredIds (o : EventLoop.Outcome) : list string :=
  match o with
  | EventLoop.Answered (mkResponse _ (BodyResults results)) =>
      map resultSessionId results
  | _ => []
  end.


(** C8 as stated, of one way to remove. *)
Definition removesAsSpecified
  (remove : Env -> string -> EventLoop.Realm
            -> EventLoop.Outcome * EventLoop.Realm) : Prop :=
  (forall env id r,
     EventLoop.isOwn r id = false ->
     exists message r',
       remove env id r
       = (EventLoop.Answered (json (BodySuccess message)), r'))
  /\ (forall env id r s,
        get (EventLoop.own r) id = Some (Some s) ->
        In (ClientLogout (client s))
           (trace (EventLoop.world (snd (remove env id r))))
        /\ In (ClientDestroy (client s))
              (trace (EventLoop.world (snd (remove env id r))))).

(** The id holds a new session: the client just made, no QR code, not
    ready. *)
Definition freshAfterSetup (r : EventLoop.Realm) (id : string) : Prop :=
  exists p,
    EventLoop.lookup (snd (EventLoop.setupSession_start id r)) id
    = EventLoop.VSession p
        (mkSession (length (clients (EventLoop.world r))) None false).

(** C9 as stated, of one way to remove. *)
Definition freshAfterRemove
  (remove : Env -> string -> EventLoop.Realm
            -> EventLoop.Outcome * EventLoop.Realm)
  (env : Env) (id : string) (r : EventLoop.Realm) : Prop :=
  freshAfterSetup (snd (remove env id r)) id.


(** ** Sample runs of the event loop *)

Definition played (schedule : list EventLoop.Turn) : EventLoop.Realm :=
  EventLoop.realm (EventLoop.play calm schedule EventLoop.boot).

(** Sessions [2] and [1] made in that order, both ready. *)
Definition twoNumberedRealm : EventLoop.Realm :=
  played [EventLoop.Begin (GetQrView "2"); EventLoop.Resume 0 0;
          EventLoop.Begin (GetQrView "1"); EventLoop.Resume 0 0;
          EventLoop.Begin (Emits 0 EvReady); EventLoop.Begin (Emits 1 EvReady)].



(** Session [a], ready. *)
Definition readyRealm : EventLoop.Realm :=
  played [EventLoop.Begin (GetQrView "a"); EventLoop.Resume 0 0;
          EventLoop.Begin (Emits 0 EvReady)].

(** Session [a] set up, its QR code stored, then authenticated. *)
Definition scanned : list EventLoop.Turn :=
  [EventLoop.Begin (GetQrView "a"); EventLoop.Resume 0 0;
   EventLoop.Begin (Emits 0 (EvQr "2@abc")); EventLoop.Resume 0 0;
   EventLoop.Begin (Emits 0 EvAuthenticated)].

(** A session set up under [__proto__], ready. *)
Definition protoReady : EventLoop.Realm :=
  played [EventLoop.Begin (GetQrView "__proto__"); EventLoop.Resume 0 0;
          EventLoop.Begin (Emits 0 EvReady)].

(** Sessions [a] and [b], ready. *)
Definition bothReady : EventLoop.Realm :=
  played [EventLoop.Begin (GetQrView "a"); EventLoop.Resume 0 0;
          EventLoop.Begin (GetQrView "b"); EventLoop.Resume 0 0;
          EventLoop.Begin (Emits 0 EvReady); EventLoop.Begin (Emits 1 EvReady)].

(** A broadcast over [a] and [b] during whose first send session [b] is
    deleted. *)
Definition broadcastInterrupted : EventLoop.Outcome * EventLoop.Realm :=
  let begun := EventLoop.begin calm (PostApiBroadcast "911" "hi") bothReady in
  let deleted := deleteAlone calm "b" (snd begun) in
  EventLoop.drive calm 2 0 (fst begun) (snd deleted).

(** Sessions [A] ready, [B] disconnected, [C] ready. *)
Definition threeRealm : EventLoop.Realm :=
  played [EventLoop.Begin (GetQrView "A"); EventLoop.Resume 0 0;
          EventLoop.Begin (GetQrView "B"); EventLoop.Resume 0 0;
          EventLoop.Begin (GetQrView "C"); EventLoop.Resume 0 0;
          EventLoop.Begin (Emits 0 EvReady);
          EventLoop.Begin (Emits 1 EvDisconnected);
          EventLoop.Begin (Emits 2 EvReady)].

(** Session [a] becomes ready while the image of its QR code is being
    rendered; the handler of [qr] then goes on. *)
Definition racing : list EventLoop.Turn :=
  [EventLoop.Begin (GetQrView "a"); EventLoop.Resume 0 0;
   EventLoop.Begin (Emits 0 (EvQr "2@abc"));
   EventLoop.Begin (Emits 0 EvAuthenticated);
   EventLoop.Begin (Emits 0 EvReady);
   EventLoop.Resume 0 0].

(** Session [a] is asked for; its QR code arrives and is stored while the
    client initializes. *)
Definition qrWhileInitializing : list EventLoop.Turn :=
  [EventLoop.Begin (GetQrView "a");
   EventLoop.Begin (Emits 0 (EvQr "2@abc")); EventLoop.Resume 1 0].

(** Session [a] from its setup to ready. *)
Definition paired : list EventLoop.Turn :=
  (scanned ++ [EventLoop.Begin (Emits 0 EvReady)])%list.

(** * Properties *)

(** Unfolds a handler down to the state it leaves. *)
Ltac run_handler :=
  unfold on_qr, on_ready, on_authenticated, on_remote_session_saved,
    on_message, on_disconnected, updateSession, get_qr_view, get_api_qr,
    get_api_status, get_api_sessions, get_api_logout, delete_api_session,
    post_api_send, on_join, setupSession, setupSession_start, Message_create,
    tryCatch, bind, readSessions, writeSessions, withSessions, effect, call,
    record, ret, throw; simpl.

(** ** The [sessions] object *)

Section ObjFacts.
Context {V : Type}.
Implicit Types (o : Obj V) (k : string) (v : V).

Lemma get_set_same o k v : get (set o k v) k = Some v.
Proof.
  induction o as [|[k' v'] o IH]; simpl.
  - now rewrite String.eqb_refl.
  - destruct (String.eqb k' k) eqn:E; simpl; rewrite E; auto.
Qed.

Lemma get_set_other o k k2 v : k <> k2 -> get (set o k v) k2 = get o k2.
Proof.
  intros Hne. induction o as [|[k' v'] o IH]; simpl.
  - apply String.eqb_neq in Hne. now rewrite Hne.
  - destruct (String.eqb_spec k' k) as [->|Hk]; simpl.
    + apply String.eqb_neq in Hne. now rewrite Hne.
    + now rewrite IH.
Qed.

Lemma get_delete_same o k : get (delete o k) k = None.
Proof.
  induction o as [|[k' v'] o IH]; simpl; auto.
  destruct (String.eqb k' k) eqn:E; simpl; auto. now rewrite E.
Qed.

Lemma get_delete_other o k k2 : k <> k2 -> get (delete o k) k2 = get o k2.
Proof.
  intros Hne. induction o as [|[k' v'] o IH]; simpl; auto.
  destruct (String.eqb_spec k' k) as [->|Hk]; simpl.
  - apply String.eqb_neq in Hne. now rewrite Hne.
  - now rewrite IH.
Qed.

Lemma get_None_iff o k : get o k = None <-> ~ In k (creationOrder o).
Proof.
  induction o as [|[k' v'] o IH]; simpl.
  - tauto.
  - destruct (String.eqb_spec k' k) as [->|Hk].
    + split; [discriminate | intros H; exfalso; apply H; now left].
    + rewrite IH. tauto.
Qed.

Lemma set_absent o k v : get o k = None -> set o k v = (o ++ [(k, v)])%list.
Proof.
  induction o as [|[k' v'] o IH]; simpl; auto.
  destruct (String.eqb k' k); [discriminate|].
  intros H. now rewrite IH.
Qed.

Lemma delete_absent o k : get o k = None -> delete o k = o.
Proof.
  induction o as [|[k' v'] o IH]; simpl; auto.
  destruct (String.eqb k' k); [discriminate|]; simpl.
  intros H. now rewrite IH.
Qed.

Lemma delete_idempotent o k : delete (delete o k) k = delete o k.
Proof. apply delete_absent, get_delete_same. Qed.

Lemma creationOrder_set_present o k v :
  get o k <> None -> creationOrder (set o k v) = creationOrder o.
Proof.
  induction o as [|[k' v'] o IH]; simpl; [congruence|].
  destruct (String.eqb_spec k' k) as [->|Hk]; simpl; auto.
  intros H. now rewrite IH.
Qed.

Lemma creationOrder_set_absent o k v :
  get o k = None -> creationOrder (set o k v) = (creationOrder o ++ [k])%list.
Proof.
  intros H. rewrite set_absent by assumption.
  unfold creationOrder. now rewrite map_app.
Qed.

Lemma creationOrder_set_NoDup o k v :
  NoDup (creationOrder o) -> NoDup (creationOrder (set o k v)).
Proof.
  intros Hnd. destruct (get o k) eqn:E.
  - rewrite creationOrder_set_present; congruence.
  - rewrite creationOrder_set_absent by assumption.
    apply NoDup_app; [assumption | repeat constructor; simpl; tauto |].
    intros x Hx [<-|[]]. now apply get_None_iff in E.
Qed.

Lemma creationOrder_delete_NoDup o k :
  NoDup (creationOrder o) -> NoDup (creationOrder (delete o k)).
Proof.
  unfold creationOrder, delete.
  induction o as [|[k' v'] o IH]; simpl; auto.
  intros Hnd. inversion Hnd as [|? ? Hin Hnd']; subst.
  destruct (String.eqb k' k); simpl; auto.
  constructor; auto.
  intros Hin'. apply Hin. apply in_map_iff in Hin' as [p [Hp Hq]].
  apply filter_In in Hq as [Hq _]. apply in_map_iff. eauto.
Qed.

End ObjFacts.

(** ** Key order *)

Lemma insertIndex_perm n k l : Permutation (insertIndex n k l) ((n, k) :: l).
Proof.
  induction l as [|[m k'] l IH]; simpl; auto.
  destruct (n <=? m)%N; auto.
  rewrite IH. apply perm_swap.
Qed.

Lemma ownKeys_split_perm ks :
  Permutation
    (map snd (indexKeys ks) ++ filter (fun k => negb (isArrayIndex k)) ks)%list
    ks.
Proof.
  induction ks as [|k ks IH]; simpl; auto.
  unfold isArrayIndex. destruct (arrayIndex k) as [n|]; simpl.
  - rewrite (Permutation_map snd (insertIndex_perm n k (indexKeys ks))).
    simpl. now constructor.
  - rewrite <- Permutation_middle. now constructor.
Qed.

(** Every key is visited, and visited as often as it is there. *)
Lemma ownKeys_perm {V} (o : Obj V) :
  Permutation (ownKeys o) (creationOrder o).
Proof. apply ownKeys_split_perm. Qed.

Lemma indexKeys_none ks :
  forallb (fun k => negb (isArrayIndex k)) ks = true -> indexKeys ks = [].
Proof.
  induction ks as [|k ks IH]; simpl; auto.
  unfold isArrayIndex at 1. destruct (arrayIndex k); simpl; [discriminate|].
  exact IH.
Qed.

Lemma filter_all {A} (p : A -> bool) l : forallb p l = true -> filter p l = l.
Proof.
  induction l as [|a l IH]; simpl; auto.
  destruct (p a); simpl; [|discriminate]. intros H. now rewrite IH.
Qed.

(** Without array indices among the keys the order is the creation order. *)
Lemma ownKeys_creationOrder {V} (o : Obj V) :
  forallb (fun k => negb (isArrayIndex k)) (creationOrder o) = true ->
  ownKeys o = creationOrder o.
Proof.
  intros H. unfold ownKeys. rewrite indexKeys_none by assumption.
  simpl. now apply filter_all.
Qed.

Lemma insertIndex_sorted n k l :
  Sorted byIndex l -> Sorted byIndex (insertIndex n k l).
Proof.
  induction l as [|[m k'] l IH]; simpl; intros Hs.
  - repeat constructor.
  - destruct (N.leb_spec n m) as [Hle|Hgt].
    + constructor; [exact Hs | constructor; exact Hle].
    + inversion Hs as [|? ? Hs' Hhd]; subst.
      constructor; [now apply IH|].
      destruct l as [|[m2 k2] l]; simpl.
      * constructor. unfold byIndex; simpl. lia.
      * destruct (N.leb_spec n m2).
        -- constructor. unfold byIndex; simpl. lia.
        -- constructor. now inversion Hhd.
Qed.

(** The array indices come in ascending numeric order. *)
Lemma indexKeys_sorted ks : Sorted byIndex (indexKeys ks).
Proof.
  induction ks as [|k ks IH]; simpl; [constructor|].
  destruct (arrayIndex k); auto using insertIndex_sorted.
Qed.

Lemma insertIndex_In n k l p :
  In p (insertIndex n k l) <-> p = (n, k) \/ In p l.
Proof.
  induction l as [|[m k'] l IH]; simpl.
  - intuition congruence.
  - destruct (n <=? m)%N; simpl; [intuition congruence|].
    rewrite IH. intuition congruence.
Qed.

Lemma indexKeys_In ks n k :
  In (n, k) (indexKeys ks) <-> In k ks /\ arrayIndex k = Some n.
Proof.
  induction ks as [|k' ks IH]; simpl; [tauto|].
  destruct (arrayIndex k') as [m|] eqn:E.
  - rewrite insertIndex_In, IH. split.
    + intros [H|[H1 H2]]; [inversion H; subst; auto | auto].
    + intros [[->|H1] H2]; [left; congruence | auto].
  - rewrite IH. split; [tauto|].
    intros [[->|H1] H2]; [congruence | auto].
Qed.

(** ** Handlers that leave the [sessions] object alone *)

Lemma record_nothing w :
  mkWorld (sessions w) (clients w) (messages w) (trace w ++ []) = w.
Proof. destruct w; simpl. now rewrite app_nil_r. Qed.

Lemma broadcastOne_spec env number message sessionId w :
  broadcastOne env number message sessionId w
  = (Resolved (resultFor env number message (sessions w) sessionId),
     mkWorld (sessions w) (clients w) (messages w)
             (trace w ++ contactFor number message (sessions w) sessionId)).
Proof.
  unfold broadcastOne, resultFor, contactFor, bind, readSessions; simpl.
  destruct (get (sessions w) sessionId) as [[s|]|];
    try (unfold ret; now rewrite record_nothing).
  destruct (isReady s); [|unfold ret; now rewrite record_nothing].
  unfold tryCatch, bind, call, record, ret; simpl.
  now destruct (sendMessage env (client s) (number ++ "@c.us") message).
Qed.

Lemma broadcastLoop_spec env number message keys : forall results w,
  broadcastLoop env number message keys results w
  = (Resolved
       (results ++ map (resultFor env number message (sessions w)) keys)%list,
     mkWorld (sessions w) (clients w) (messages w)
       (trace w ++ flat_map (contactFor number message (sessions w)) keys)).
Proof.
  induction keys as [|k keys IH]; intros results w; simpl.
  - unfold ret. now rewrite app_nil_r, record_nothing.
  - unfold bind. rewrite broadcastOne_spec, IH; simpl.
    now rewrite <- !app_assoc.
Qed.

Lemma post_api_broadcast_spec env number message w :
  post_api_broadcast env number message w
  = (Resolved (json (BodyResults
       (map (resultFor env number message (sessions w))
            (ownKeys (sessions w))))),
     mkWorld (sessions w) (clients w) (messages w)
       (trace w ++ flat_map (contactFor number message (sessions w))
                            (ownKeys (sessions w)))).
Proof.
  unfold post_api_broadcast, bind, readSessions; simpl.
  now rewrite broadcastLoop_spec.
Qed.

(** ** C2: inbound messages *)

Lemma replaceFirst_suffix user :
  occurs "@" user = false -> replaceFirst "@c.us" (user ++ "@c.us") = user.
Proof.
  induction user as [|c user IH]; intros Hno.
  - reflexivity.
  - simpl in Hno. apply orb_false_elim in Hno as [Hc Hrest].
    change (String c user ++ "@c.us") with (String c (user ++ "@c.us")).
    cbn [replaceFirst String.prefix].
    destruct (ascii_dec "@" c) as [<-|Hne].
    + discriminate.
    + now rewrite IH.
Qed.

(** C2, as stated, fails: when the store rejects the write the handler
    stops there and nothing is published. *)
Lemma store_failure_suppresses_publish :
  ~ publishesDespiteStoreFailure storeDown "a" "911@c.us" "yo" 5 oneReady.
Proof.
  intros H. specialize (H "MongoNetworkError" eq_refl).
  vm_compute in H. intuition discriminate.
Qed.

(** C2, amended.  On a [message] event the handler removes the first
    [@c.us] from the sender address, which for an address [user@c.us] leaves
    [user], and asks the store for one document
    [(sessionId, from, sessionId, body, now)].  When the write resolves the
    document is persisted and the message is then published on the channel of
    the session.  When the write rejects the handler rejects with the
    store's error: nothing is persisted and nothing is published. *)
Theorem inbound_persist_then_publish env sessionId msgFrom msgBody now w :
  let from := replaceFirst "@c.us" msgFrom in
  let doc := mkMessage sessionId from sessionId msgBody now in
  (create env doc = Resolved tt ->
   on_message env sessionId msgFrom msgBody now w
   = (Resolved tt,
      mkWorld (sessions w) (clients w) (messages w ++ [doc])
        (trace w ++ [MessageCreate doc;
                     RoomEmit sessionId (PushMessage from msgBody now)])))
  /\ (forall err,
        create env doc = Rejected err ->
        on_message env sessionId msgFrom msgBody now w
        = (Rejected err,
           mkWorld (sessions w) (clients w) (messages w)
                   (trace w ++ [MessageCreate doc])))
  /\ (forall user,
        occurs "@" user = false -> msgFrom = user ++ "@c.us" -> from = user).
Proof.
  cbv zeta. split; [|split].
  - intros Hok.
    unfold on_message, bind, Message_create, effect, call, record.
    rewrite Hok; simpl. now rewrite <- app_assoc.
  - intros err Hbad.
    unfold on_message, bind, Message_create, effect, call, record.
    now rewrite Hbad.
  - intros user Hno ->. now apply replaceFirst_suffix.
Qed.

Lemma inbound_persist_then_publish_sample :
  on_message calm "a" "911@c.us" "yo" 5 emptyWorld
  = (Resolved tt,
     mkWorld [] [] [mkMessage "a" "911" "a" "yo" 5]
       [MessageCreate (mkMessage "a" "911" "a" "yo" 5);
        RoomEmit "a" (PushMessage "911" "yo" 5)])
  /\ on_message storeDown "a" "911@c.us" "yo" 5 emptyWorld
     = (Rejected "MongoNetworkError",
        mkWorld [] [] [] [MessageCreate (mkMessage "a" "911" "a" "yo" 5)])
  /\ replaceFirst "@c.us" "911@c.us" = "911".
Proof.
  split; [|split].
  - apply (inbound_persist_then_publish calm "a" "911@c.us" "yo" 5 emptyWorld).
    reflexivity.
  - apply (inbound_persist_then_publish
             storeDown "a" "911@c.us" "yo" 5 emptyWorld).
    reflexivity.
  - apply (inbound_persist_then_publish calm "a" "911@c.us" "yo" 5 emptyWorld
             : _ /\ _ /\ _); reflexivity.
Defined.

(** ** C5: send *)

(** C5, as stated, fails: the provider accepts the message, the store
    rejects the document, and the send is answered 500 with nothing
    persisted. *)
Lemma send_store_failure :
  ~ sendPersistsAndReturns storeDown "a" "911" "hi" 5 oneReady.
Proof.
  intros H.
  destruct (H (mkSession 0 None true) "true_911@c.us_3EB0"
              eq_refl eq_refl eq_refl) as [Hanswer _].
  vm_compute in Hanswer. discriminate.
Qed.

(** C5, amended.  A send on a ready session calls the provider once.  When
    the provider and then the store accept, one document
    [(sessionId, admin, number, message, now)] is persisted and the
    provider's message id is answered.  When the provider rejects, the
    answer is 500 with its error, the store is not asked and nothing is
    persisted.  When the provider accepts and the store rejects, the answer
    is 500 with the store's error and nothing is persisted. *)
Theorem send_ready env sessionId number message now w s :
  get (sessions w) sessionId = Some (Some s) ->
  isReady s = true ->
  let chatId := number ++ "@c.us" in
  let doc := mkMessage sessionId "admin" number message now in
  let out := post_api_send env sessionId number message now w in
  (forall messageId,
     sendMessage env (client s) chatId message = Resolved messageId ->
     create env doc = Resolved tt ->
     out = (Resolved (json (BodySent messageId)),
            mkWorld (sessions w) (clients w) (messages w ++ [doc])
              (trace w ++ [ClientSendMessage (client s) chatId message;
                           MessageCreate doc])))
  /\ (forall err,
        sendMessage env (client s) chatId message = Rejected err ->
        out = (Resolved (mkResponse 500 (BodyError err)),
               mkWorld (sessions w) (clients w) (messages w)
                 (trace w ++ [ClientSendMessage (client s) chatId message])))
  /\ (forall messageId err,
        sendMessage env (client s) chatId message = Resolved messageId ->
        create env doc = Rejected err ->
        out = (Resolved (mkResponse 500 (BodyError err)),
               mkWorld (sessions w) (clients w) (messages w)
                 (trace w ++ [ClientSendMessage (client s) chatId message;
                              MessageCreate doc]))).
Proof.
  intros Hget Hready. cbv zeta.
  unfold post_api_send, bind, readSessions; simpl.
  rewrite Hget, Hready; simpl.
  unfold tryCatch, bind, call, Message_create, record, ret; simpl.
  split; [|split].
  - intros messageId Hsend Hstore. rewrite Hsend, Hstore; simpl.
    now rewrite <- app_assoc.
  - intros err Hsend. now rewrite Hsend.
  - intros messageId err Hsend Hstore. rewrite Hsend, Hstore; simpl.
    now rewrite <- app_assoc.
Qed.

Lemma send_ready_sample :
  post_api_send calm "a" "911" "hi" 5 oneReady
  = (Resolved (json (BodySent "true_911@c.us_3EB0")),
     mkWorld (sessions oneReady) (clients oneReady)
       [mkMessage "a" "admin" "911" "hi" 5]
       (trace oneReady
        ++ [ClientSendMessage 0 "911@c.us" "hi";
            MessageCreate (mkMessage "a" "admin" "911" "hi" 5)]))
  /\ fst (post_api_send (sendFailsFor 0) "a" "911" "hi" 5 oneReady)
     = Resolved (mkResponse 500 (BodyError "Evaluation failed"))
  /\ fst (post_api_send storeDown "a" "911" "hi" 5 oneReady)
     = Resolved (mkResponse 500 (BodyError "MongoNetworkError")).
Proof.
  split; [|split].
  - apply (send_ready calm "a" "911" "hi" 5 oneReady (mkSession 0 None true));
      reflexivity.
  - destruct (send_ready (sendFailsFor 0) "a" "911" "hi" 5 oneReady
                (mkSession 0 None true) eq_refl eq_refl) as (_ & H & _).
    rewrite (H "Evaluation failed" eq_refl). reflexivity.
  - destruct (send_ready storeDown "a" "911" "hi" 5 oneReady
                (mkSession 0 None true) eq_refl eq_refl) as (_ & _ & H).
    rewrite (H "true_911@c.us_3EB0" "MongoNetworkError" eq_refl eq_refl).
    reflexivity.
Defined.

(** ** C6: replay on join *)

Lemma setupSession_live env sessionId w s :
  get (sessions w) sessionId = Some (Some s) ->
  setupSession env sessionId w = (Resolved tt, w).
Proof.
  intros H. unfold setupSession, setupSession_start. now rewrite H.
Qed.

(** C6, as stated, fails: a session that is ready and was then given a QR
    code is answered with that code, not with the ready signal. *)
Lemma join_ready_with_qr :
  ~ replaysReady calm 7 "a" readyThenQr.
Proof.
  intros H.
  specialize (H (mkSession 0 (Some (dataUrl "2@abc")) true) eq_refl eq_refl).
  vm_compute in H. intuition discriminate.
Qed.

(** C6, amended.  A join on the channel of a live session makes no client
    and waits for no provider event; it leaves [sessions] as it is and pushes
    to the joining socket what [replay] says: the current QR code when the
    session holds one, which is the case in AwaitingScan, and otherwise the
    ready signal when the session is ready.  A ready session that holds a QR
    code is answered with the code only.  The replay is a function of the
    two fields of the session, so a second join is answered alike. *)
Theorem join_replays_current_state env socket sessionId w s :
  get (sessions w) sessionId = Some (Some s) ->
  let out := on_join env socket sessionId w in
  out = (Resolved tt,
         mkWorld (sessions w) (clients w) (messages w)
           (trace w ++ SocketJoin socket sessionId :: replay socket s))
  /\ (stateOf (Some s) = AwaitingScan ->
      replay socket s = [SocketEmit socket (PushQr (stringOf (latestQR s)))]
      /\ latestQR s <> None)
  /\ (stateOf (Some s) = Ready -> truthy (latestQR s) = false ->
      replay socket s = [SocketEmit socket PushReady])
  /\ (stateOf (Some s) = Ready -> truthy (latestQR s) = true ->
      replay socket s = [SocketEmit socket (PushQr (stringOf (latestQR s)))])
  /\ (forall socket',
        on_join env socket' sessionId (snd out)
        = (Resolved tt,
           mkWorld (sessions w) (clients w) (messages w)
             (trace (snd out)
              ++ SocketJoin socket' sessionId :: replay socket' s))).
Proof.
  intros Hget.
  assert (Hjoin : forall k w0,
             get (sessions w0) sessionId = Some (Some s) ->
             on_join env k sessionId w0
             = (Resolved tt,
                mkWorld (sessions w0) (clients w0) (messages w0)
                  (trace w0 ++ SocketJoin k sessionId :: replay k s))).
  { intros k w0 H0. unfold on_join, bind, effect, call.
    rewrite (setupSession_live env sessionId (record _ w0) s) by exact H0.
    unfold readSessions, replay; simpl. rewrite H0; simpl.
    destruct (truthy (latestQR s)); simpl.
    - unfold record; simpl. now rewrite <- app_assoc.
    - destruct (isReady s); unfold ret, record; simpl;
        now rewrite <- ?app_assoc. }
  cbv zeta. rewrite (Hjoin socket w Hget); simpl.
  split; [reflexivity|].
  split.
  { unfold replay; simpl. destruct (isReady s); [discriminate|].
    destruct (latestQR s) as [q|] eqn:Eq; simpl; [|discriminate].
    destruct (String.eqb q EmptyString); simpl; [discriminate|].
    intros _. split; [reflexivity | discriminate]. }
  split.
  { unfold replay; simpl. intros Hready Hno. rewrite Hno.
    destruct (isReady s); [reflexivity|].
    destruct (truthy (latestQR s)); discriminate. }
  split.
  { unfold replay. intros _ Hqr. now rewrite Hqr. }
  intros socket'. now rewrite Hjoin.
Qed.

Lemma join_replays_sample :
  on_join calm 7 "a" oneReady
  = (Resolved tt,
     mkWorld (sessions oneReady) (clients oneReady) (messages oneReady)
       (trace oneReady ++ [SocketJoin 7 "a"; SocketEmit 7 PushReady])).
Proof.
  apply (join_replays_current_state calm 7 "a" oneReady
           (mkSession 0 None true)).
  reflexivity.
Defined.

(** ** What a step does to [sessions] *)

Lemma setupSession_touched env sessionId w :
  Touched noQrIfReady
    (sessions w) (sessions (snd (setupSession env sessionId w))).
Proof.
  run_handler. destruct (hasClient (get (sessions w) sessionId)); simpl.
  - constructor.
  - constructor. intros s [= <-]. discriminate.
Qed.

Lemma set_set {V} (o : Obj V) k v v' : set (set o k v) k v' = set o k v'.
Proof.
  induction o as [|[k0 v0] o IH]; simpl.
  - now rewrite String.eqb_refl.
  - destruct (String.eqb k0 k) eqn:Ek; simpl; rewrite Ek; auto.
    now rewrite IH.
Qed.

Lemma handler_touched env sessionId ev w :
  Touched
    (fun e =>
       match ev with
       | EvQr _ => isReadyOf (get (sessions w) sessionId)
       | _ => false
       end = false -> noQrIfReady e)
    (sessions w) (sessions (snd (handler env sessionId ev w))).
Proof.
  destruct ev as [qr| | | |f b now|]; simpl.
  - run_handler. destruct (toDataURL env qr); simpl; [|constructor].
    destruct (get (sessions w) sessionId) as [[s|]|]; simpl; try constructor.
    intros Hqr s' [= <-]; simpl. congruence.
  - constructor.
  - run_handler.
    destruct (get (sessions w) sessionId) as [[s|]|] eqn:E; simpl;
      try constructor.
    rewrite get_set_same, set_set; simpl.
    constructor. intros _ s' [= <-]. reflexivity.
  - constructor.
  - run_handler. destruct (create env _) as [[]|]; simpl; constructor.
  - run_handler. constructor. discriminate.
Qed.

Lemma touched_weaken (P Q : Entry -> Prop) o o' :
  (forall e, P e -> Q e) -> Touched P o o' -> Touched Q o o'.
Proof. intros HPQ [|k e He|k]; constructor; auto. Qed.

Lemma step_touched env a w :
  Touched (fun e => qrWhileReady a w = false -> noQrIfReady e)
    (sessions w) (sessions (step env a w)).
Proof.
  destruct a as [c ev|k|k|k| |k|k|k number message now|number message|socket k];
    simpl.
  - unfold emitFrom.
    destruct (nth_error (clients w) c) as [k|]; [|constructor].
    eapply touched_weaken; [|apply handler_touched].
    intros e He Hqr. apply He. now destruct ev.
  - unfold get_qr_view, bind.
    pose proof (setupSession_touched env k w) as H.
    apply (touched_weaken _ (fun e => false = false -> noQrIfReady e))
      in H; [|auto].
    destruct (setupSession env k w) as [[[]|err] w1]; simpl in *;
      [|exact H].
    unfold readSessions; simpl.
    now destruct (negb (truthy (latestQROf (get (sessions w1) k)))).
  - run_handler. destruct (truthy _); constructor.
  - constructor.
  - constructor.
  - run_handler.
    destruct (get (sessions w) k) as [[s|]|]; simpl; try constructor.
    destruct (logout env (client s)) as [[]|]; simpl; [|constructor].
    destruct (destroy env (client s)) as [[]|]; simpl; constructor.
    discriminate.
  - run_handler. destruct (deleteMany env k) as [[]|]; simpl; [|constructor].
    destruct (get (sessions w) k) as [[s|]|]; simpl; constructor.
  - run_handler.
    destruct (get (sessions w) k) as [[s|]|]; simpl; try constructor.
    destruct (isReady s); simpl; [|constructor].
    destruct (sendMessage env _ _ _); simpl; [|constructor].
    destruct (create env _) as [[]|]; simpl; constructor.
  - rewrite post_api_broadcast_spec; simpl. constructor.
  - unfold on_join, bind, effect, call.
    pose proof (setupSession_touched env k (record (SocketJoin socket k) w))
      as H.
    apply (touched_weaken _ (fun e => false = false -> noQrIfReady e))
      in H; [|auto].
    destruct (setupSession env k _) as [[[]|err] w1]; simpl in *; [|exact H].
    unfold readSessions; simpl.
    destruct (truthy _); simpl; [exact H|].
    destruct (isReadyOf _); simpl; exact H.
Qed.

(** The keys of [sessions] stay distinct along every run. *)
Lemma touched_keys_distinct P o o' :
  Touched P o o' ->
  NoDup (creationOrder o) -> NoDup (creationOrder o').
Proof.
  intros [|k e _|k]; auto using creationOrder_set_NoDup,
    creationOrder_delete_NoDup.
Qed.

Lemma run_keys_distinct env acts : forall w,
  NoDup (creationOrder (sessions w)) ->
  NoDup (creationOrder (sessions (run env acts w))).
Proof.
  induction acts as [|a acts IH]; intros w Hnd; simpl; auto.
  apply IH. eapply touched_keys_distinct; [apply step_touched | exact Hnd].
Qed.

(** ** C7: concurrent calls of [setupSession] *)










(** ** A deletion the store rejects *)

Lemma delete_api_session_rejected env sessionId w err :
  deleteMany env sessionId = Rejected err ->
  delete_api_session env sessionId w
  = (Resolved (mkResponse 500 (BodyError err)),
     record (SessionsDeleteMany sessionId) w).
Proof. intros Hbad. run_handler. now rewrite Hbad. Qed.

(** ** Keys of [sessions] *)


(** ** Every handler, one step at a time *)

Ltac grown :=
  split; simpl; rewrite <- ?app_assoc;
  first [ eexists; reflexivity | exists []; now rewrite app_nil_r ].

Ltac unmoved := apply MovedNot; reflexivity.

Lemma handler_moved env id ev w :
  Moved w (snd (handler env id ev w)) /\ Grown w (snd (handler env id ev w)).
Proof.
  destruct ev as [qr| | | |f b now|]; simpl.
  - run_handler. destruct (toDataURL env qr) as [img|]; simpl;
      [|split; [unmoved | grown]].
    destruct (get (sessions w) id) as [[s|]|] eqn:Hget; simpl;
      try (split; [unmoved | grown]).
    split; [|grown].
    eapply MovedFields with (s' := mkSession (client s) (Some img) (isReady s));
      eauto.
  - split; [unmoved | grown].
  - run_handler.
    destruct (get (sessions w) id) as [[s|]|] eqn:Hget; simpl;
      try (split; [unmoved | grown]).
    rewrite get_set_same, set_set; simpl.
    split; [|grown].
    eapply MovedFields with (s' := mkSession (client s) None true); eauto.
  - split; [unmoved | grown].
  - run_handler. destruct (create env _) as [[]|]; simpl;
      (split; [unmoved | grown]).
  - run_handler. split; [|grown]. eapply MovedNull; reflexivity.
Qed.

Lemma setupSession_moved env id w :
  Moved w (snd (setupSession env id w))
  /\ Grown w (snd (setupSession env id w)).
Proof.
  run_handler. destruct (hasClient (get (sessions w) id)) eqn:Hlive; simpl.
  - split; [unmoved | grown].
  - split; [|grown]. eapply MovedCreated; eauto.
Qed.

Lemma moved_ext w0 w w1 w1' :
  sessions w0 = sessions w -> clients w0 = clients w ->
  sessions w1' = sessions w1 -> clients w1' = clients w1 ->
  Moved w0 w1 -> Moved w w1'.
Proof.
  intros E1 E2 E3 E4 H.
  destruct H as [Hs Hc|k s s' Hget Hcl Hs Hc|k Hs Hc|k Hs Hc|k Hfree Hs Hc].
  - apply MovedNot; congruence.
  - apply MovedFields with (id := k) (s := s) (s' := s'); congruence.
  - apply MovedNull with (id := k); congruence.
  - apply MovedDeleted with (id := k); congruence.
  - apply MovedCreated with (id := k); congruence.
Qed.

Lemma grown_trans w0 w1 w2 : Grown w0 w1 -> Grown w1 w2 -> Grown w0 w2.
Proof.
  intros [[d1 Hd1] [e1 He1]] [[d2 Hd2] [e2 He2]]. split.
  - exists (d1 ++ d2)%list. now rewrite Hd2, Hd1, app_assoc.
  - exists (e1 ++ e2)%list. now rewrite He2, He1, app_assoc.
Qed.

Lemma grown_record e w : Grown w (record e w).
Proof. grown. Qed.

Lemma step_moved env a w :
  Moved w (step env a w) /\ Grown w (step env a w).
Proof.
  destruct a as [c ev|k|k|k| |k|k|k number message now|number message|socket k];
    simpl.
  - unfold emitFrom.
    destruct (nth_error (clients w) c) as [k|]; [apply handler_moved|].
    split; [unmoved | grown].
  - unfold get_qr_view, bind.
    pose proof (setupSession_moved env k w) as H.
    destruct (setupSession env k w) as [[[]|err] w1]; simpl in *;
      [|exact H].
    unfold readSessions; simpl.
    now destruct (negb (truthy (latestQROf (get (sessions w1) k)))).
  - run_handler. destruct (truthy _); (split; [unmoved | grown]).
  - split; [unmoved | grown].
  - split; [unmoved | grown].
  - run_handler.
    destruct (get (sessions w) k) as [[s|]|]; simpl;
      try (split; [unmoved | grown]).
    destruct (logout env (client s)) as [[]|]; simpl;
      [|split; [unmoved | grown]].
    destruct (destroy env (client s)) as [[]|]; simpl;
      [|split; [unmoved | grown]].
    split; [|grown]. eapply MovedNull; reflexivity.
  - run_handler. destruct (deleteMany env k) as [[]|]; simpl;
      [|split; [unmoved | grown]].
    destruct (get (sessions w) k) as [[s|]|]; simpl;
      (split; [eapply MovedDeleted; reflexivity | grown]).
  - run_handler.
    destruct (get (sessions w) k) as [[s|]|]; simpl;
      try (split; [unmoved | grown]).
    destruct (isReady s); simpl; [|split; [unmoved | grown]].
    destruct (sendMessage env _ _ _); simpl; [|split; [unmoved | grown]].
    destruct (create env _) as [[]|]; simpl; (split; [unmoved | grown]).
  - rewrite post_api_broadcast_spec; simpl. split; [unmoved | grown].
  - unfold on_join, bind, effect, call.
    pose proof (setupSession_moved env k (record (SocketJoin socket k) w))
      as [Hm Hg].
    apply (grown_trans _ _ _ (grown_record (SocketJoin socket k) w)) in Hg.
    assert (Hm' : forall w', sessions w' = sessions (snd (setupSession env k
                      (record (SocketJoin socket k) w))) ->
                  clients w' = clients (snd (setupSession env k
                      (record (SocketJoin socket k) w))) ->
                  Moved w w').
    { intros w' Es Ec.
      now apply (moved_ext (record (SocketJoin socket k) w) w _ w') in Hm. }
    destruct (setupSession env k _) as [[[]|err] w1]; simpl in *;
      [|split; [now apply Hm' | exact Hg]].
    unfold readSessions; simpl.
    destruct (truthy _); simpl;
      [|destruct (isReadyOf _); simpl];
      (split; [now apply Hm'
              | first [ exact Hg
                      | eapply grown_trans;
                        [exact Hg | apply grown_record] ]]).
Qed.

(** ** Invariants of every run *)

Lemma moved_clientsMatch w w' :
  Moved w w' -> clientsMatch w -> clientsMatch w'.
Proof.
  intros [Hs Hc|k s s' Hget Hcl Hs Hc|k Hs Hc|k Hs Hc|k Hfree Hs Hc] Hinv
         k2 s2; rewrite Hs, Hc.
  - apply Hinv.
  - destruct (String.eqb_spec k k2) as [<-|Hne].
    + rewrite get_set_same. intros [= <-]. rewrite Hcl. now apply Hinv.
    + rewrite get_set_other by assumption. apply Hinv.
  - destruct (String.eqb_spec k k2) as [<-|Hne].
    + rewrite get_set_same. discriminate.
    + rewrite get_set_other by assumption. apply Hinv.
  - destruct (String.eqb_spec k k2) as [<-|Hne].
    + rewrite get_delete_same. discriminate.
    + rewrite get_delete_other by assumption. apply Hinv.
  - destruct (String.eqb_spec k k2) as [<-|Hne].
    + rewrite get_set_same. intros [= <-]; simpl.
      rewrite nth_error_app2, Nat.sub_diag by lia. reflexivity.
    + rewrite get_set_other by assumption. intros Hget.
      apply Hinv in Hget. rewrite nth_error_app1; [assumption|].
      apply nth_error_Some. congruence.
Qed.

Lemma run_clientsMatch env acts : forall w,
  clientsMatch w -> clientsMatch (run env acts w).
Proof.
  induction acts as [|a acts IH]; intros w Hinv; simpl; auto.
  apply IH. eapply moved_clientsMatch; [apply step_moved | exact Hinv].
Qed.

Lemma moved_clients_grow w w' :
  Moved w w' -> exists made, clients w' = (clients w ++ made)%list.
Proof.
  intros [Hs Hc|k s s' Hget Hcl Hs Hc|k Hs Hc|k Hs Hc|k Hfree Hs Hc];
    rewrite Hc; eauto; exists []; now rewrite app_nil_r.
Qed.

(** X1.  In every state the server reaches from its start, the client a
    live session holds was made for the key the session is stored under; so no
    two keys share a client, and the keys are distinct. *)
Theorem live_sessions_own_their_clients env acts :
  let w := run env acts emptyWorld in
  clientsMatch w
  /\ (forall id1 id2 s1 s2,
        get (sessions w) id1 = Some (Some s1) ->
        get (sessions w) id2 = Some (Some s2) ->
        client s1 = client s2 -> id1 = id2)
  /\ NoDup (creationOrder (sessions w)).
Proof.
  cbv zeta.
  assert (Hinv : clientsMatch (run env acts emptyWorld)).
  { apply run_clientsMatch. intros k s H. discriminate. }
  split; [exact Hinv|]. split.
  - intros k1 k2 s1 s2 H1 H2 Hsame.
    apply Hinv in H1. apply Hinv in H2. congruence.
  - apply run_keys_distinct. constructor.
Qed.

Lemma live_sessions_sample :
  nth_error (clients threeSessions) 2 = Some "C".
Proof.
  destruct (live_sessions_own_their_clients calm
              [GetQrView "A"; GetQrView "B"; GetQrView "C";
               Emits 0 EvReady; Emits 1 EvDisconnected; Emits 2 EvReady])
    as [Hmatch _].
  apply (Hmatch "C" (mkSession 2 None true)). reflexivity.
Defined.

(** X2.  No action takes anything back: along every run, from any world,
    the [Message] collection, the trace of outside calls and the list of
    clients are only extended.  In particular no route, the deletion of a
    session included, removes or rewrites a persisted message. *)
Theorem run_only_adds env acts : forall w,
  Grown w (run env acts w)
  /\ exists made, clients (run env acts w) = (clients w ++ made)%list.
Proof.
  induction acts as [|a acts IH]; intros w; simpl.
  - split; [grown | exists []; now rewrite app_nil_r].
  - destruct (IH (step env a w)) as [Hg [made Hc]].
    destruct (step_moved env a w) as [Hm Hg0].
    split; [eapply grown_trans; eassumption|].
    destruct (moved_clients_grow _ _ Hm) as [made0 Hc0].
    exists (made0 ++ made)%list. now rewrite Hc, Hc0, app_assoc.
Qed.

(** ** [setupSession] once and again *)



(** ** The QR code from the event to the routes *)


Lemma on_ready_live id w s :
  get (sessions w) id = Some (Some s) ->
  on_ready id w
  = (Resolved tt,
     mkWorld (set (sessions w) id (Some (mkSession (client s) None true)))
             (clients w) (messages w)
             (trace w ++ [RoomEmit id PushReady])).
Proof.
  intros Hget. run_handler. rewrite Hget; simpl.
  now rewrite get_set_same, set_set.
Qed.



(** ** An old client and a new session *)

Lemma emitFrom_known env c id ev w :
  nth_error (clients w) c = Some id ->
  emitFrom env c ev w = handler env id ev w.
Proof. intros Hc. unfold emitFrom. now rewrite Hc. Qed.

Lemma on_disconnected_spec id w :
  on_disconnected id w
  = (Resolved tt,
     mkWorld (set (sessions w) id None) (clients w) (messages w)
             (trace w ++ [RoomEmit id PushDisconnected])).
Proof. reflexivity. Qed.

Lemma setupSession_dead env id w :
  hasClient (get (sessions w) id) = false ->
  setupSession env id w
  = (initialize env (length (clients w)),
     mkWorld (set (sessions w) id
                  (Some (mkSession (length (clients w)) None false)))
             (clients w ++ [id]) (messages w)
             (trace w ++ [NewClient (length (clients w)) id;
                          ClientInitialize (length (clients w))])).
Proof.
  intros Hdead. unfold setupSession, setupSession_start. now rewrite Hdead.
Qed.

(** X6.  The handlers of a client close over the session id, not over the
    session.  When a client has disconnected and [setupSession] has made a new
    session for its id, a [ready] event of the old client marks the new
    session ready, and the next broadcast sends through the new client. *)
Theorem old_client_drives_new_session env id c w :
  nth_error (clients w) c = Some id ->
  let w1 := snd (emitFrom env c EvDisconnected w) in
  let w2 := snd (setupSession env id w1) in
  let w3 := snd (emitFrom env c EvReady w2) in
  c < length (clients w)
  /\ get (sessions w2) id
     = Some (Some (mkSession (length (clients w)) None false))
  /\ get (sessions w3) id
     = Some (Some (mkSession (length (clients w)) None true))
  /\ forall number message,
       contactFor number message (sessions w3) id
       = [ClientSendMessage (length (clients w)) (number ++ "@c.us") message].
Proof.
  intros Hc. cbv zeta.
  assert (Hlt : c < length (clients w)).
  { apply nth_error_Some. congruence. }
  split; [exact Hlt|].
  rewrite (emitFrom_known env c id EvDisconnected w Hc).
  cbn [handler]. rewrite on_disconnected_spec. cbn [snd].
  rewrite setupSession_dead by (simpl; now rewrite get_set_same).
  cbn [snd sessions clients length].
  rewrite set_set, get_set_same.
  split; [reflexivity|].
  rewrite (emitFrom_known env c id EvReady)
    by (simpl; now rewrite nth_error_app1).
  cbn [handler].
  erewrite on_ready_live by (simpl; apply get_set_same).
  cbn [snd sessions client]. rewrite set_set, get_set_same.
  split; [reflexivity|].
  intros number message. unfold contactFor. now rewrite get_set_same.
Qed.

Lemma old_client_sample :
  get (sessions
         (snd (emitFrom calm 0 EvReady
                 (snd (setupSession calm "a"
                         (snd (emitFrom calm 0 EvDisconnected oneReady)))))))
      "a"
  = Some (Some (mkSession 1 None true)).
Proof.
  apply (old_client_drives_new_session calm "a" 0 oneReady). reflexivity.
Defined.

(** ** The routes that only read *)

(** X7.  [GET /api/sessions] changes nothing and lists one entry per key of
    [sessions], in key order, each agreeing with what the other routes say
    of the id: its [isReady] is the readiness [GET /api/status/:id] answers,
    and its [hasQR] holds exactly when [GET /api/qr/:id] answers a QR code
    instead of 404. *)
Theorem sessions_list_agrees w :
  exists list,
    get_api_sessions w = (Resolved (json (BodySessions list)), w)
    /\ map infoSessionId list = ownKeys (sessions w)
    /\ forall info,
         In info list ->
         get_api_status (infoSessionId info) w
         = (Resolved (json (BodyReady (infoIsReady info))), w)
         /\ (hasQR info = true ->
             exists qr,
               get_api_qr (infoSessionId info) w
               = (Resolved (json (BodyQr qr)), w))
         /\ (hasQR info = false ->
             get_api_qr (infoSessionId info) w
             = (Resolved (mkResponse 404 (BodyMessage "QR not ready")), w)).
Proof.
  eexists. split; [reflexivity|]. split.
  - rewrite map_map. apply map_id.
  - intros info Hin. apply in_map_iff in Hin as [k [<- _]]; simpl.
    split; [reflexivity|].
    unfold get_api_qr, bind, readSessions, ret; simpl.
    split; intros ->; eauto.
Qed.


(** ** When a removal fails *)

(** X10.  A logout whose provider call rejects stops there: if [logout]
    rejects, [destroy] is not called; if [destroy] rejects after [logout]
    resolved, the provider has logged the client out; either way the session
    stays in [sessions] as it was and the route rejects.  A deletion whose
    store call rejects answers 500 with the store's error, calls no client
    and keeps the session. *)
Theorem failed_removal_keeps_session env id w s :
  get (sessions w) id = Some (Some s) ->
  (forall err,
     logout env (client s) = Rejected err ->
     get_api_logout env id w = (Rejected err, record (ClientLogout (client s)) w))
  /\ (forall err,
        logout env (client s) = Resolved tt ->
        destroy env (client s) = Rejected err ->
        get_api_logout env id w
        = (Rejected err,
           mkWorld (sessions w) (clients w) (messages w)
             (trace w ++ [ClientLogout (client s); ClientDestroy (client s)])))
  /\ (forall err,
        deleteMany env id = Rejected err ->
        delete_api_session env id w
        = (Resolved (mkResponse 500 (BodyError err)),
           record (SessionsDeleteMany id) w)).
Proof.
  intros Hget. split; [|split].
  - intros err Hbad. run_handler. rewrite Hget; simpl. now rewrite Hbad.
  - intros err Hok Hbad. run_handler. rewrite Hget; simpl.
    rewrite Hok, Hbad; simpl. now rewrite <- app_assoc.
  - intros err Hbad. now apply delete_api_session_rejected.
Qed.

Lemma failed_removal_sample :
  get_api_logout logoutFails "a" oneReady
  = (Rejected "Protocol error: Session closed",
     record (ClientLogout 0) oneReady).
Proof.
  apply (failed_removal_keeps_session logoutFails "a" oneReady
           (mkSession 0 None true)); reflexivity.
Defined.

(** ** A send always answers *)

(** X11.  [POST /api/send] never rejects: it answers 200, 400 or 500.  It
    leaves [sessions] and the clients as they are, answers 200 exactly when
    it has added the one outbound document to the [Message] collection, and
    otherwise leaves the collection as it is. *)
Theorem send_answers env id number message now w :
  let doc := mkMessage id "admin" number message now in
  exists r w',
    post_api_send env id number message now w = (Resolved r, w')
    /\ sessions w' = sessions w
    /\ clients w' = clients w
    /\ ((status r = 200 /\ messages w' = (messages w ++ [doc])%list)
        \/ ((status r = 400 \/ status r = 500) /\ messages w' = messages w)).
Proof.
  assert (Hcases : forall r w',
            sessions w' = sessions w -> clients w' = clients w ->
            (status r = 200
             /\ messages w'
                = (messages w ++ [mkMessage id "admin" number message now])%list)
            \/ ((status r = 400 \/ status r = 500)
                /\ messages w' = messages w) ->
            exists r0 w0,
              (Resolved r, w') = (Resolved r0, w0)
              /\ sessions w0 = sessions w /\ clients w0 = clients w
              /\ ((status r0 = 200
                   /\ messages w0
                      = (messages w
                         ++ [mkMessage id "admin" number message now])%list)
                  \/ ((status r0 = 400 \/ status r0 = 500)
                      /\ messages w0 = messages w))).
  { intros r w' Hs Hc Hm. exists r, w'. auto. }
  cbv zeta. run_handler.
  destruct (get (sessions w) id) as [[s|]|]; simpl;
    try (apply Hcases; simpl; now auto).
  destruct (isReady s); simpl; [|apply Hcases; simpl; now auto].
  destruct (sendMessage env _ _ _); simpl; [|apply Hcases; simpl; now auto].
  destruct (create env _) as [[]|]; simpl; apply Hcases; simpl; now auto.
Qed.

Lemma sessions_list_sample :
  get_api_status "B" threeSessions
  = (Resolved (json (BodyReady false)), threeSessions).
Proof.
  destruct (sessions_list_agrees threeSessions) as [list [Hlist [_ Hagree]]].
  assert (Hin : In (mkInfo "B" false false) list).
  { unfold get_api_sessions, bind, readSessions, ret in Hlist.
    injection Hlist as <-. vm_compute. auto. }
  apply (Hagree _ Hin).
Defined.

(** ** The sender address *)

Lemma replaceFirst_eq pat s :
  replaceFirst pat s
  = if String.prefix pat s then
      substring (String.length pat) (String.length s - String.length pat) s
    else
      match s with
      | EmptyString => EmptyString
      | String c rest => String c (replaceFirst pat rest)
      end.
Proof. destruct s; reflexivity. Qed.

Lemma includes_eq pat s :
  includes pat s
  = String.prefix pat s
    || match s with
       | EmptyString => false
       | String _ rest => includes pat rest
       end.
Proof. destruct s; reflexivity. Qed.

Lemma substring_all s : substring 0 (String.length s) s = s.
Proof. induction s as [|c s IH]; simpl; [reflexivity | now rewrite IH]. Qed.

Lemma replaceFirst_absent pat s :
  includes pat s = false -> replaceFirst pat s = s.
Proof.
  induction s as [|c s IH]; rewrite includes_eq, replaceFirst_eq;
    intros H; apply orb_false_elim in H as [Hp Hr]; rewrite Hp.
  - reflexivity.
  - now rewrite IH.
Qed.

Lemma replaceFirst_at_first user rest :
  occurs "@" user = false ->
  replaceFirst "@c.us" (user ++ "@c.us" ++ rest) = user ++ rest.
Proof.
  induction user as [|c user IH]; intros Hno.
  - rewrite replaceFirst_eq. simpl.
    replace (String.prefix EmptyString rest) with true by now destruct rest.
    rewrite Nat.sub_0_r. apply substring_all.
  - simpl in Hno. apply orb_false_elim in Hno as [Hc Hrest].
    change (String c user ++ "@c.us" ++ rest)
      with (String c (user ++ "@c.us" ++ rest)).
    rewrite replaceFirst_eq. cbn [String.prefix].
    destruct (ascii_dec "@" c) as [<-|Hne]; [discriminate|].
    rewrite IH by assumption. reflexivity.
Qed.

(** X12.  The [message] handler removes from the sender address the first
    [@c.us] and nothing else: an address that does not include [@c.us], a
    group address for one, is stored as it is, and in an address that
    continues after its first [@c.us] what follows is kept. *)
Theorem sender_address_normalised msgFrom :
  (includes "@c.us" msgFrom = false ->
   replaceFirst "@c.us" msgFrom = msgFrom)
  /\ (forall user rest,
        occurs "@" user = false ->
        msgFrom = user ++ "@c.us" ++ rest ->
        replaceFirst "@c.us" msgFrom = user ++ rest).
Proof.
  split.
  - apply replaceFirst_absent.
  - intros user rest Hno ->. now apply replaceFirst_at_first.
Qed.

Lemma sender_address_sample :
  replaceFirst "@c.us" "120363@g.us" = "120363@g.us"
  /\ replaceFirst "@c.us" "911@c.us@c.us" = "911@c.us".
Proof.
  split.
  - apply (sender_address_normalised "120363@g.us"). reflexivity.
  - apply (sender_address_normalised "911@c.us@c.us" : _ /\ _)
      with (user := "911") (rest := "@c.us"); reflexivity.
Defined.

(** ** Message history *)

Lemma insertByTime_perm d l : Permutation (insertByTime d l) (d :: l).
Proof.
  induction l as [|d' l IH]; simpl; auto.
  destruct (time d' <=? time d)%N; auto.
  rewrite IH. apply perm_swap.
Qed.

Lemma sortByTimeDesc_perm docs : Permutation (sortByTimeDesc docs) docs.
Proof.
  induction docs as [|d docs IH]; simpl; auto.
  rewrite insertByTime_perm. now constructor.
Qed.

Lemma insertByTime_sorted d l :
  Sorted newerFirst l -> Sorted newerFirst (insertByTime d l).
Proof.
  induction l as [|d' l IH]; simpl; intros Hs.
  - repeat constructor.
  - destruct (N.leb_spec (time d') (time d)) as [Hle|Hgt].
    + constructor; [exact Hs | constructor; exact Hle].
    + inversion Hs as [|? ? Hs' Hhd]; subst.
      constructor; [now apply IH|].
      destruct l as [|d2 l]; simpl.
      * constructor. unfold newerFirst. lia.
      * destruct (N.leb_spec (time d2) (time d)).
        -- constructor. unfold newerFirst. lia.
        -- constructor. now inversion Hhd.
Qed.

Lemma sortByTimeDesc_sorted docs : Sorted newerFirst (sortByTimeDesc docs).
Proof.
  induction docs as [|d docs IH]; simpl; [constructor|].
  now apply insertByTime_sorted.
Qed.

Lemma Message_find_In id docs d :
  In d (Message_find id docs) <-> In d docs /\ sessionId d = id.
Proof.
  unfold Message_find. rewrite filter_In. now rewrite String.eqb_eq.
Qed.

(** X13.  [GET /api/messages/:id] changes nothing and answers exactly the
    persisted documents whose [sessionId] is the id, each as often as it was
    persisted, the newer before the older. *)
Theorem history_of_session id w :
  exists docs,
    get_api_messages id w = (Resolved docs, w)
    /\ Sorted newerFirst docs
    /\ Permutation docs (Message_find id (messages w))
    /\ forall d, In d docs <-> In d (messages w) /\ sessionId d = id.
Proof.
  eexists. split; [reflexivity|].
  split; [apply sortByTimeDesc_sorted|].
  split; [apply sortByTimeDesc_perm|].
  intros d. rewrite <- Message_find_In. split; apply Permutation_in.
  - apply sortByTimeDesc_perm.
  - apply Permutation_sym, sortByTimeDesc_perm.
Qed.

Lemma history_sample :
  exists docs,
    get_api_messages "a" (snd (on_message calm "a" "911@c.us" "yo" 5 oneReady))
    = (Resolved docs, snd (on_message calm "a" "911@c.us" "yo" 5 oneReady))
    /\ In (mkMessage "a" "911" "a" "yo" 5) docs.
Proof.
  destruct (history_of_session "a"
              (snd (on_message calm "a" "911@c.us" "yo" 5 oneReady)))
    as [docs (Hanswer & _ & _ & Hin)].
  exists docs. split; [exact Hanswer|].
  apply Hin. split; [vm_compute; auto | reflexivity].
Defined.

(** X14.  What a send or an inbound message has persisted is found in the
    history of its session and in no other: after a send answered with a
    message id the history of the session has the outbound document, after a
    [message] event whose handler resolved it has the inbound one, and the
    history of every other id is what it was. *)
Theorem persisted_message_in_history env id w :
  (forall number message now messageId w',
     post_api_send env id number message now w
     = (Resolved (json (BodySent messageId)), w') ->
     (exists docs,
        get_api_messages id w' = (Resolved docs, w')
        /\ In (mkMessage id "admin" number message now) docs)
     /\ forall other, other <> id ->
          fst (get_api_messages other w') = fst (get_api_messages other w))
  /\ (forall msgFrom msgBody now w',
        on_message env id msgFrom msgBody now w = (Resolved tt, w') ->
        (exists docs,
           get_api_messages id w' = (Resolved docs, w')
           /\ In (mkMessage id (replaceFirst "@c.us" msgFrom) id msgBody now)
                 docs)
        /\ forall other, other <> id ->
             fst (get_api_messages other w') = fst (get_api_messages other w)).
Proof.
  assert (Hadded : forall doc w',
            sessionId doc = id ->
            messages w' = (messages w ++ [doc])%list ->
            (exists docs,
               get_api_messages id w' = (Resolved docs, w') /\ In doc docs)
            /\ forall other, other <> id ->
                 fst (get_api_messages other w')
                 = fst (get_api_messages other w)).
  { intros doc w' Hid Hm. split.
    - eexists. split; [reflexivity|].
      apply (Permutation_in _ (Permutation_sym (sortByTimeDesc_perm _))).
      apply Message_find_In. rewrite Hm. split; [|exact Hid].
      apply in_or_app. right. now left.
    - intros other Hne. unfold get_api_messages; simpl. rewrite Hm.
      unfold Message_find. rewrite filter_app; simpl. rewrite Hid.
      apply String.eqb_neq in Hne. rewrite String.eqb_sym, Hne.
      now rewrite app_nil_r. }
  split.
  - intros number message now messageId w'. run_handler.
    destruct (get (sessions w) id) as [[s|]|]; simpl; try discriminate.
    destruct (isReady s); simpl; [|discriminate].
    destruct (sendMessage env _ _ _); simpl; [|discriminate].
    destruct (create env _) as [[]|]; simpl; [|discriminate].
    intros [= _ <-]. now apply Hadded.
  - intros msgFrom msgBody now w'. run_handler.
    destruct (create env _) as [[]|]; simpl; [|discriminate].
    intros [= <-]. now apply Hadded.
Qed.

Lemma persisted_message_sample :
  exists docs,
    get_api_messages "a" (snd (post_api_send calm "a" "911" "hi" 5 oneReady))
    = (Resolved docs, snd (post_api_send calm "a" "911" "hi" 5 oneReady))
    /\ In (mkMessage "a" "admin" "911" "hi" 5) docs.
Proof.
  destruct (persisted_message_in_history calm "a" oneReady) as [Hsend _].
  eapply Hsend. reflexivity.
Defined.

(** ** The single-session server *)

Ltac run_single :=
  unfold SingleSession.post_whatsapp_send_test,
    SingleSession.sendMessageToWhatsApp, SingleSession.get_whatsapp_qr,
    SingleSession.get_whatsapp_status, SingleSession.getLatestQR,
    SingleSession.isWhatsAppConnected, SingleSession.setupWhatsApp,
    SingleSession.on_qr, SingleSession.on_ready,
    SingleSession.on_disconnected, SingleSession.on_message,
    SingleSession.Message_create, SingleSession.newClient,
    SingleSession.setClient, SingleSession.setLatestQR,
    SingleSession.setIsReady, SingleSession.emit, SingleSession.call,
    SingleSession.read, SingleSession.tryCatch, SingleSession.bind,
    SingleSession.ret, SingleSession.throw; simpl.

Lemma prefix_refl s : String.prefix s s = true.
Proof. apply prefix_correct, substring_all. Qed.

Lemma includes_suffix pat s : includes pat (s ++ pat) = true.
Proof.
  induction s as [|c s IH].
  - simpl. rewrite includes_eq, prefix_refl. reflexivity.
  - change (String c s ++ pat) with (String c (s ++ pat)).
    rewrite includes_eq, IH. apply orb_true_r.
Qed.

Lemma chatIdOf_includes number :
  includes "@c.us" (SingleSession.chatIdOf number) = true.
Proof.
  unfold SingleSession.chatIdOf.
  destruct (includes "@c.us" number) eqn:E; [exact E|].
  apply includes_suffix.
Qed.

(** X15.  [POST /whatsapp/send-test] answers 400 when the number or the
    message is missing or empty, and 500 [WhatsApp not ready] when both are
    given but there is no client or it is not ready; in both cases the
    provider is not called and nothing is persisted. *)
Theorem single_send_refused env number message now w :
  (truthy number = false \/ truthy message = false ->
   SingleSession.post_whatsapp_send_test env number message now w
   = (Resolved (mkResponse 400 (BodyError "Missing number or message")), w))
  /\ (truthy number = true -> truthy message = true ->
      SingleSession.client w = None \/ SingleSession.isReady w = false ->
      SingleSession.post_whatsapp_send_test env number message now w
      = (Resolved (mkResponse 500 (BodyError "WhatsApp not ready")), w)).
Proof.
  split.
  - intros [H|H]; unfold SingleSession.post_whatsapp_send_test; rewrite H;
      simpl; [reflexivity | now rewrite orb_true_r].
  - intros Hn Hm Hdown. run_single. rewrite Hn, Hm; simpl.
    destruct (SingleSession.client w) as [c|]; [|reflexivity].
    destruct Hdown as [Hc|Hr]; [discriminate|]. now rewrite Hr.
Qed.

Lemma single_send_refused_sample :
  SingleSession.post_whatsapp_send_test SingleSession.calm
    (Some "911") None 5 SingleSession.connected
  = (Resolved (mkResponse 400 (BodyError "Missing number or message")),
     SingleSession.connected)
  /\ SingleSession.post_whatsapp_send_test SingleSession.calm
       (Some "911") (Some "hi") 5 SingleSession.start
     = (Resolved (mkResponse 500 (BodyError "WhatsApp not ready")),
        SingleSession.start).
Proof.
  split.
  - apply (single_send_refused SingleSession.calm (Some "911") None 5
             SingleSession.connected).
    right. reflexivity.
  - apply (single_send_refused SingleSession.calm (Some "911") (Some "hi") 5
             SingleSession.start); auto.
Defined.

(** X16.  With a client that is ready, a number and a message,
    [POST /whatsapp/send-test] sends through the client to the number itself
    when it includes [@c.us] and to the number followed by [@c.us] when it
    does not, so that the chat id always includes [@c.us] and the suffix is
    never doubled; when provider and store accept, the document persisted
    keeps the number as it was given and the provider's message id is
    answered. *)
Theorem single_send_chat_id env number message now w c messageId :
  SingleSession.client w = Some c ->
  SingleSession.isReady w = true ->
  number <> EmptyString ->
  message <> EmptyString ->
  let chatId := SingleSession.chatIdOf number in
  let doc := SingleSession.mkMessage "admin" number message now in
  SingleSession.sendMessage env c chatId message = Resolved messageId ->
  SingleSession.create env doc = Resolved tt ->
  SingleSession.post_whatsapp_send_test env (Some number) (Some message) now w
  = (Resolved (json (BodySent messageId)),
     SingleSession.mkWorld (SingleSession.client w) (SingleSession.latestQR w)
       (SingleSession.isReady w) (SingleSession.constructed w)
       (SingleSession.messages w ++ [doc])
       (SingleSession.trace w
        ++ [SingleSession.ClientSendMessage c chatId message;
            SingleSession.MessageCreate doc]))
  /\ includes "@c.us" chatId = true
  /\ (includes "@c.us" number = true -> chatId = number)
  /\ (includes "@c.us" number = false -> chatId = number ++ "@c.us")
  /\ SingleSession.chatIdOf chatId = chatId.
Proof.
  intros Hc Hr Hn Hm. cbv zeta. intros Hsend Hstore.
  apply String.eqb_neq in Hn. apply String.eqb_neq in Hm.
  split.
  { destruct w as [cl latest ready made docs effects]; simpl in *; subst.
    run_single. rewrite Hn, Hm; simpl.
    rewrite Hsend, Hstore; simpl. now rewrite <- app_assoc. }
  split; [apply chatIdOf_includes|].
  split; [unfold SingleSession.chatIdOf; now intros ->|].
  split; [unfold SingleSession.chatIdOf; now intros ->|].
  unfold SingleSession.chatIdOf at 1. now rewrite chatIdOf_includes.
Qed.

Lemma single_send_chat_id_sample :
  fst (SingleSession.post_whatsapp_send_test SingleSession.calm
         (Some "911@c.us") (Some "hi") 5 SingleSession.connected)
  = Resolved (json (BodySent "true_911@c.us_3EB0")).
Proof.
  destruct (single_send_chat_id SingleSession.calm "911@c.us" "hi" 5
              SingleSession.connected 0 "true_911@c.us_3EB0")
    as [H _];
    [reflexivity | reflexivity | discriminate | discriminate
    | reflexivity | reflexivity |].
  rewrite H. reflexivity.
Defined.

(** X17.  The [qr] handler of the single-session server never rejects: a QR
    code that renders is stored and emitted, and one that does not leaves
    [latestQR] at [null] with nothing emitted. *)
Theorem single_qr_never_rejects env qr w :
  (forall img,
     SingleSession.toDataURL env qr = Resolved img ->
     SingleSession.on_qr env qr w
     = (Resolved tt,
        SingleSession.mkWorld (SingleSession.client w) (Some img)
          (SingleSession.isReady w) (SingleSession.constructed w)
          (SingleSession.messages w)
          (SingleSession.trace w
           ++ [SingleSession.IoEmit (SingleSession.PushQr img)])))
  /\ (forall err,
        SingleSession.toDataURL env qr = Rejected err ->
        SingleSession.on_qr env qr w
        = (Resolved tt,
           SingleSession.mkWorld (SingleSession.client w) None
             (SingleSession.isReady w) (SingleSession.constructed w)
             (SingleSession.messages w) (SingleSession.trace w)))
  /\ exists w', SingleSession.on_qr env qr w = (Resolved tt, w').
Proof.
  run_single. destruct (SingleSession.toDataURL env qr) as [img|err]; simpl.
  - split; [now intros ? [= <-]|]. split; [discriminate | eauto].
  - split; [discriminate|]. split; [now intros ? _ | eauto].
Qed.

Lemma single_qr_sample :
  SingleSession.getLatestQR
    (snd (SingleSession.on_qr SingleSession.noImage "2@abc"
            (snd (SingleSession.on_qr SingleSession.calm "2@abc"
                    SingleSession.start))))
  = None.
Proof.
  destruct (single_qr_never_rejects SingleSession.noImage "2@abc"
              (snd (SingleSession.on_qr SingleSession.calm "2@abc"
                      SingleSession.start))) as (_ & H & _).
  now rewrite (H "No input text" eq_refl).
Defined.

(** X18.  After a [disconnected] event the single-session server has no
    client, no QR code and is not ready: the status is not ready, the QR
    route answers 404 and a send is refused without a call of the provider.
    A later [setupWhatsApp] whose connection and store resolve constructs and
    initializes a new client. *)
Theorem single_disconnect_resets env sessionId w :
  let w1 := snd (SingleSession.on_disconnected w) in
  SingleSession.client w1 = None
  /\ SingleSession.latestQR w1 = None
  /\ SingleSession.isReady w1 = false
  /\ (SingleSession.trace w1
      = SingleSession.trace w
        ++ [SingleSession.IoEmit SingleSession.PushDisconnected])%list
  /\ SingleSession.get_whatsapp_status w1
     = (Resolved (json (BodyReady false)), w1)
  /\ SingleSession.get_whatsapp_qr w1
     = (Resolved (mkResponse 404 (BodyMessage "QR not ready")), w1)
  /\ (forall number message now,
        number <> EmptyString -> message <> EmptyString ->
        SingleSession.post_whatsapp_send_test env (Some number) (Some message)
          now w1
        = (Resolved (mkResponse 500 (BodyError "WhatsApp not ready")), w1))
  /\ (SingleSession.asPromise env = Resolved tt ->
      SingleSession.init env = Resolved tt ->
      let c := SingleSession.constructed w in
      let w2 := snd (SingleSession.setupWhatsApp env sessionId w1) in
      SingleSession.client w2 = Some c
      /\ (SingleSession.trace w2
          = SingleSession.trace w1
            ++ [SingleSession.ConnectionAsPromise; SingleSession.StoreInit;
                SingleSession.NewClient c sessionId;
                SingleSession.ClientInitialize c])%list).
Proof.
  cbv zeta. run_single.
  repeat (split; [reflexivity|]).
  split.
  - intros number message now Hn Hm.
    apply String.eqb_neq in Hn. apply String.eqb_neq in Hm.
    now rewrite Hn, Hm.
  - intros Hconn Hinit. rewrite Hconn, Hinit; simpl.
    split; [reflexivity|]. now rewrite <- !app_assoc.
Qed.

Lemma single_disconnect_sample :
  SingleSession.client
    (snd (SingleSession.setupWhatsApp SingleSession.calm "admin"
            (snd (SingleSession.on_disconnected SingleSession.connected))))
  = Some 1.
Proof.
  destruct (single_disconnect_resets SingleSession.calm "admin"
              SingleSession.connected) as (_ & _ & _ & _ & _ & _ & _ & H).
  apply (H eq_refl eq_refl).
Defined.

(** * The server on the event loop *)

(** ** Lookups *)

Lemma logs_nil r : logs [] r = r.
Proof.
  destruct r as [[o c m t] p f]. unfold logs; simpl. now rewrite app_nil_r.
Qed.

Lemma logs_log e es r : logs es (EventLoop.log e r) = logs (e :: es) r.
Proof. unfold logs, EventLoop.log; simpl. now rewrite <- app_assoc. Qed.

Lemma log_logs e r : EventLoop.log e r = logs [e] r.
Proof. reflexivity. Qed.

Lemma logs_logs es1 es2 r : logs es2 (logs es1 r) = logs (es1 ++ es2) r.
Proof. unfold logs; simpl. now rewrite <- app_assoc. Qed.

Lemma lookup_own_session r id s :
  get (EventLoop.own r) id = Some (Some s) ->
  EventLoop.lookup r id = EventLoop.VSession EventLoop.Own s.
Proof. intros H. unfold EventLoop.lookup. now rewrite H. Qed.

Lemma lookup_own_null r id :
  get (EventLoop.own r) id = Some None ->
  EventLoop.lookup r id = EventLoop.VNull.
Proof. intros H. unfold EventLoop.lookup. now rewrite H. Qed.

Lemma isOwn_false r id :
  EventLoop.isOwn r id = false <-> get (EventLoop.own r) id = None.
Proof.
  unfold EventLoop.isOwn. destruct (get (EventLoop.own r) id); split;
    congruence.
Qed.

(** Nothing but [__proto__] is inherited as a session. *)
Lemma inherited_no_client r id :
  id <> "__proto__" -> EventLoop.clientOf (EventLoop.inherited r id) = None.
Proof.
  intros Hne. apply String.eqb_neq in Hne.
  unfold EventLoop.inherited, EventLoop.objectPrototypeGet.
  destruct (EventLoop.proto r) as [|s|]; rewrite ?Hne; simpl; auto.
  - destruct (EventLoop.isBuiltin id); auto.
    destruct (String.eqb id "latestQR").
    + now destruct (EventLoop.xLatestQR _) as [[q|]|].
    + destruct (String.eqb id "isReady"); auto.
      now destruct (EventLoop.xIsReady _).
  - destruct (String.eqb id "client"); auto.
    destruct (String.eqb id "latestQR"); [now destruct (latestQR s)|].
    destruct (String.eqb id "isReady"); auto.
    destruct (EventLoop.isBuiltin id); auto.
Qed.

Lemma assign_own r id v :
  id <> "__proto__" ->
  EventLoop.assign r id v = EventLoop.setOwn r (set (EventLoop.own r) id v).
Proof.
  intros Hne. apply String.eqb_neq in Hne. unfold EventLoop.assign.
  destruct (get (EventLoop.own r) id); auto.
  destruct (EventLoop.proto r); now rewrite ?Hne.
Qed.

(** ** A handler left alone *)

Lemma drive_more env now x r' : forall n o r,
  EventLoop.drive env n now o r = (EventLoop.Answered x, r') ->
  EventLoop.drive env (S n) now o r = (EventLoop.Answered x, r').
Proof.
  induction n as [|n IH]; intros o r H.
  - simpl in H. injection H as -> ->. reflexivity.
  - destruct o as [t| | |]; try exact H.
    change (EventLoop.drive env (S (S n)) now (EventLoop.Suspended t) r)
      with (let (o', r0) := EventLoop.resume env t now r in
            EventLoop.drive env (S n) now o' r0).
    change (EventLoop.drive env (S n) now (EventLoop.Suspended t) r)
      with (let (o', r0) := EventLoop.resume env t now r in
            EventLoop.drive env n now o' r0) in H.
    destruct (EventLoop.resume env t now r) as [o' r0]. now apply IH.
Qed.

Lemma broadcastFrom_alone env number message now keys :
  forall results r o r1,
  (forall k, In k keys -> EventLoop.stillEnumerable r k = true) ->
  EventLoop.broadcastFrom env number message keys results r = (o, r1) ->
  EventLoop.drive env (length keys) now o r1
  = (EventLoop.Answered
       (json (BodyResults
                (results ++ map (owed env number message r) keys)%list)),
     logs (flat_map (contacted number message r) keys) r).
Proof.
  induction keys as [|k keys IH]; intros results r o r1 Hthere Hrun.
  - simpl in Hrun. injection Hrun as <- <-.
    simpl. now rewrite app_nil_r, logs_nil.
  - assert (Hk : EventLoop.stillEnumerable r k = true)
      by (apply Hthere; now left).
    assert (Hrest : forall k', In k' keys ->
                               EventLoop.stillEnumerable r k' = true)
      by (intros k' Hin; apply Hthere; now right).
    cbn [EventLoop.broadcastFrom] in Hrun. rewrite Hk in Hrun.
    cbn [negb] in Hrun.
    cbn [length map flat_map]. unfold owed at 1, contacted at 1.
    destruct (EventLoop.isReadyOf r (EventLoop.lookup r k)) eqn:Hready.
    + destruct (EventLoop.clientOf (EventLoop.lookup r k)) as [c|] eqn:Hc.
      * injection Hrun as <- <-.
        cbn [EventLoop.drive EventLoop.resume].
        destruct (sendMessage env c (number ++ "@c.us") message)
          as [messageId|err].
        -- destruct (EventLoop.broadcastFrom env number message keys _ _)
             as [o' r'] eqn:Hnext.
           apply (IH _ (EventLoop.log _ r) _ _ Hrest) in Hnext.
           rewrite Hnext, <- app_assoc, logs_log. reflexivity.
        -- destruct (EventLoop.broadcastFrom env number message keys _ _)
             as [o' r'] eqn:Hnext.
           apply (IH _ (EventLoop.log _ r) _ _ Hrest) in Hnext.
           rewrite Hnext, <- app_assoc, logs_log. reflexivity.
      * apply drive_more. rewrite (IH _ _ _ _ Hrest Hrun).
        now rewrite <- app_assoc.
    + apply drive_more. rewrite (IH _ _ _ _ Hrest Hrun).
      now rewrite <- app_assoc.
Qed.

Lemma forInKeys_enumerable r k :
  In k (EventLoop.forInKeys r) -> EventLoop.stillEnumerable r k = true.
Proof.
  unfold EventLoop.forInKeys, EventLoop.stillEnumerable. intros Hin.
  apply in_app_or in Hin as [Hown|Hinh].
  - apply orb_true_iff. left. unfold EventLoop.isOwn.
    apply (Permutation_in _ (ownKeys_perm (EventLoop.own r))) in Hown.
    destruct (get (EventLoop.own r) k) eqn:E; auto.
    now apply get_None_iff in E.
  - apply filter_In in Hinh as [Hinh _].
    apply orb_true_iff. right. apply existsb_exists.
    exists k. split; [exact Hinh | apply String.eqb_refl].
Qed.

Lemma broadcastAlone_spec env number message r :
  broadcastAlone env number message r
  = (EventLoop.Answered
       (json (BodyResults
                (map (owed env number message r) (EventLoop.forInKeys r)))),
     logs (flat_map (contacted number message r) (EventLoop.forInKeys r)) r).
Proof.
  unfold broadcastAlone, alone.
  cbn [EventLoop.begin]. unfold EventLoop.post_api_broadcast.
  apply (broadcastFrom_alone env number message 0 _ [] r).
  - apply forInKeys_enumerable.
  - now destruct (EventLoop.broadcastFrom _ _ _ _ _ _).
Qed.

Lemma owed_id env number message r id :
  resultSessionId (owed env number message r id) = id.
Proof.
  unfold owed. destruct (EventLoop.isReadyOf r _); auto.
  destruct (EventLoop.clientOf _); auto.
  now destruct (sendMessage env _ _ _).
Qed.

(** Without a session for prototype and with nothing written onto
    [Object.prototype], the loop visits the own keys and no other. *)
Lemma forInKeys_own r :
  (forall s, EventLoop.proto r <> EventLoop.ProtoSession s) ->
  EventLoop.extraOf r EventLoop.ObjectPrototype = EventLoop.noExtra ->
  EventLoop.forInKeys r = ownKeys (EventLoop.own r).
Proof.
  intros Hp Hx. unfold EventLoop.forInKeys, EventLoop.inheritedNames.
  destruct (EventLoop.proto r) as [|s|]; simpl.
  - rewrite Hx; simpl. apply app_nil_r.
  - now destruct (Hp s).
  - apply app_nil_r.
Qed.

Lemma owed_own_null env number message r id entry :
  get (EventLoop.own r) id = Some entry ->
  stateOf entry <> Ready ->
  owed env number message r id = ResultFailed id "Session not ready"
  /\ contacted number message r id = [].
Proof.
  intros Hget Hstate. unfold owed, contacted, EventLoop.lookup.
  rewrite Hget. destruct entry as [s|]; auto.
  cbn [EventLoop.isReadyOf]. unfold stateOf in Hstate.
  destruct (isReady s); [congruence | auto].
Qed.

(** ** C1: broadcast *)

(** C1, as stated, fails.  Sessions [2] and [1], made in that order, are
    answered [1] first.  After [GET /qr/__proto__] the session is the
    prototype of [sessions]: the broadcast answers [client], [latestQR] and
    [isReady], and the id of the session not at all.  And a session deleted
    while the broadcast awaits a send gets no result. *)
Lemma broadcast_order_and_tracked_sessions :
  answeredIds (fst (broadcastAlone calm "911" "hi" twoNumberedRealm))
  <> creationOrder (EventLoop.own twoNumberedRealm)
  /\ (EventLoop.lookup protoReady "__proto__"
      = EventLoop.VSession EventLoop.Prototype (mkSession 0 None true)
      /\ answeredIds (fst (broadcastAlone calm "911" "hi" protoReady))
         = ["client"; "latestQR"; "isReady"])
  /\ (creationOrder (EventLoop.own bothReady) = ["a"; "b"]
      /\ answeredIds (fst broadcastInterrupted) = ["a"]).
Proof.
  split; [vm_compute; discriminate|].
  split; split; reflexivity.
Qed.

(** C1, amended.  A broadcast that runs with no other handler in between
    answers, once every send has settled, one result per key that
    [for (sessionId in sessions)] visits.  These are the own keys of
    [sessions], the array indices in ascending numeric order and then the
    other keys in creation order, followed by the enumerable names of its
    prototype chain; they are the own keys alone unless a session was set up
    under [__proto__] or a field was written onto [Object.prototype].  An
    own key holding a ready session whose send resolves is answered with the
    message id, one whose send rejects with the provider's error, and one
    that is not ready, [null] included, with [Session not ready] and without
    a call of the provider.  The result of a key depends on the provider's
    answer to the client met under that key only. *)
Theorem broadcast_alone_one_result_per_key env number message r :
  let keys := EventLoop.forInKeys r in
  let o := EventLoop.own r in
  let chatId := number ++ "@c.us" in
  let owes := owed env number message r in
  (broadcastAlone env number message r
   = (EventLoop.Answered (json (BodyResults (map owes keys))),
      logs (flat_map (contacted number message r) keys) r))
  /\ map resultSessionId (map owes keys) = keys
  /\ ((forall s, EventLoop.proto r <> EventLoop.ProtoSession s) ->
      EventLoop.extraOf r EventLoop.ObjectPrototype = EventLoop.noExtra ->
      keys = ownKeys o)
  /\ (exists inheritedKeys,
        keys = (ownKeys o ++ inheritedKeys)%list
        /\ forall k, In k inheritedKeys -> get o k = None)
  /\ Permutation (ownKeys o) (creationOrder o)
  /\ (ownKeys o
      = (map snd (indexKeys (creationOrder o))
         ++ filter (fun k => negb (isArrayIndex k)) (creationOrder o))%list
      /\ Sorted byIndex (indexKeys (creationOrder o))
      /\ forall n k, In (n, k) (indexKeys (creationOrder o))
                     <-> In k (creationOrder o) /\ arrayIndex k = Some n)
  /\ (forallb (fun k => negb (isArrayIndex k)) (creationOrder o) = true ->
      ownKeys o = creationOrder o)
  /\ (forall sessionId s messageId,
        get o sessionId = Some (Some s) -> isReady s = true ->
        sendMessage env (client s) chatId message = Resolved messageId ->
        owes sessionId = ResultSent sessionId messageId
        /\ contacted number message r sessionId
           = [ClientSendMessage (client s) chatId message])
  /\ (forall sessionId s err,
        get o sessionId = Some (Some s) -> isReady s = true ->
        sendMessage env (client s) chatId message = Rejected err ->
        owes sessionId = ResultFailed sessionId err
        /\ contacted number message r sessionId
           = [ClientSendMessage (client s) chatId message])
  /\ (forall sessionId entry,
        get o sessionId = Some entry -> stateOf entry <> Ready ->
        owes sessionId = ResultFailed sessionId "Session not ready"
        /\ contacted number message r sessionId = [])
  /\ (forall env' sessionId,
        (forall c, EventLoop.clientOf (EventLoop.lookup r sessionId) = Some c ->
                   sendMessage env' c chatId message
                   = sendMessage env c chatId message) ->
        owed env' number message r sessionId = owes sessionId).
Proof.
  cbv zeta.
  split; [apply broadcastAlone_spec|].
  split.
  { rewrite map_map. erewrite map_ext; [apply map_id|].
    intros k. apply owed_id. }
  split; [apply forInKeys_own|].
  split.
  { eexists. split; [reflexivity|].
    intros k Hin. apply filter_In in Hin as [_ Hnot].
    apply negb_true_iff in Hnot. now apply isOwn_false. }
  split; [apply ownKeys_perm|].
  split.
  { split; [reflexivity|]. split; [apply indexKeys_sorted|].
    intros n k. apply indexKeys_In. }
  split; [apply ownKeys_creationOrder|].
  split.
  { intros k s messageId Hget Hready Hsend.
    unfold owed, contacted. rewrite (lookup_own_session _ _ _ Hget).
    cbn [EventLoop.isReadyOf EventLoop.clientOf]. now rewrite Hready, Hsend. }
  split.
  { intros k s err Hget Hready Hsend.
    unfold owed, contacted. rewrite (lookup_own_session _ _ _ Hget).
    cbn [EventLoop.isReadyOf EventLoop.clientOf]. now rewrite Hready, Hsend. }
  split; [intros k entry; apply owed_own_null|].
  intros env' k Hsame. unfold owed.
  destruct (EventLoop.isReadyOf r (EventLoop.lookup r k)); auto.
  destruct (EventLoop.clientOf (EventLoop.lookup r k)) as [c|]; auto.
  now rewrite (Hsame c).
Qed.

(** The broadcast of the specification's example: [A] ready, [B]
    disconnected, [C] ready with a provider that rejects its send. *)
Lemma broadcast_alone_three_sessions :
  EventLoop.forInKeys threeRealm = ["A"; "B"; "C"]
  /\ owed (sendFailsFor 2) "911" "hi" threeRealm "A"
     = ResultSent "A" "true_911@c.us_3EB0"
  /\ owed (sendFailsFor 2) "911" "hi" threeRealm "B"
     = ResultFailed "B" "Session not ready"
  /\ owed (sendFailsFor 2) "911" "hi" threeRealm "C"
     = ResultFailed "C" "Evaluation failed"
  /\ owed calm "911" "hi" threeRealm "A"
     = owed (sendFailsFor 2) "911" "hi" threeRealm "A".
Proof.
  destruct (broadcast_alone_one_result_per_key
              (sendFailsFor 2) "911" "hi" threeRealm)
    as (_ & _ & Hown & _ & _ & _ & Horder & Hsent & Hfailed & Hnot & Hsame).
  split.
  { rewrite Hown; [rewrite Horder; reflexivity | discriminate | reflexivity]. }
  split; [apply (Hsent "A" (mkSession 0 None true)); reflexivity|].
  split; [apply (Hnot "B" None); [reflexivity | discriminate]|].
  split; [apply (Hfailed "C" (mkSession 2 None true)); reflexivity|].
  apply (Hsame calm "A"). intros c Hc. vm_compute in Hc.
  injection Hc as <-. reflexivity.
Defined.

(** ** C4: a send that is refused *)






(** ** Setting a session up, and emptying its place *)

(** After [sessions[id] = session], [sessions[id]] is that session: an own
    property, or for [__proto__] the prototype. *)
Lemma lookup_assign_session r id s :
  EventLoop.clientOf (EventLoop.lookup r id) = None ->
  exists p,
    EventLoop.lookup (EventLoop.assign r id (Some s)) id
    = EventLoop.VSession p s.
Proof.
  intros Hnone. unfold EventLoop.assign.
  assert (Hset : EventLoop.lookup
                   (EventLoop.setOwn r (set (EventLoop.own r) id (Some s))) id
                 = EventLoop.VSession EventLoop.Own s).
  { unfold EventLoop.lookup, EventLoop.setOwn, EventLoop.own; simpl.
    now rewrite get_set_same. }
  destruct (get (EventLoop.own r) id) as [entry|] eqn:Hget;
    [now exists EventLoop.Own|].
  destruct (EventLoop.proto r) as [|s0|] eqn:Hp;
    try (now exists EventLoop.Own).
  - destruct (String.eqb_spec id "__proto__") as [->|Hne];
      [|now exists EventLoop.Own].
    exists EventLoop.Prototype. unfold EventLoop.lookup.
    change (EventLoop.own (EventLoop.mkRealm (EventLoop.world r)
                             (EventLoop.ProtoSession s) (EventLoop.foreign r)))
      with (EventLoop.own r).
    now rewrite Hget.
  - destruct (String.eqb_spec id "__proto__") as [->|Hne];
      [|now exists EventLoop.Own].
    exists EventLoop.Prototype. unfold EventLoop.lookup.
    change (EventLoop.own (EventLoop.mkRealm (EventLoop.world r)
                             (EventLoop.ProtoSession s) (EventLoop.foreign r)))
      with (EventLoop.own r).
    now rewrite Hget.
Qed.

(** After [sessions[id] = null], [sessions[id]] has no client. *)
Lemma lookup_assign_null r id :
  EventLoop.clientOf (EventLoop.lookup (EventLoop.assign r id None) id) = None.
Proof.
  unfold EventLoop.assign.
  assert (Hset : EventLoop.lookup
                   (EventLoop.setOwn r (set (EventLoop.own r) id None)) id
                 = EventLoop.VNull).
  { unfold EventLoop.lookup, EventLoop.setOwn, EventLoop.own; simpl.
    now rewrite get_set_same. }
  destruct (get (EventLoop.own r) id) as [entry|] eqn:Hget;
    [now rewrite Hset|].
  destruct (EventLoop.proto r) as [|s0|] eqn:Hp; try (now rewrite Hset).
  - destruct (String.eqb_spec id "__proto__") as [->|Hne];
      [|now rewrite Hset].
    unfold EventLoop.lookup.
    change (EventLoop.own (EventLoop.mkRealm (EventLoop.world r)
                             EventLoop.ProtoNull (EventLoop.foreign r)))
      with (EventLoop.own r).
    now rewrite Hget.
  - destruct (String.eqb_spec id "__proto__") as [->|Hne];
      [|now rewrite Hset].
    unfold EventLoop.lookup.
    change (EventLoop.own (EventLoop.mkRealm (EventLoop.world r)
                             EventLoop.ProtoNull (EventLoop.foreign r)))
      with (EventLoop.own r).
    now rewrite Hget.
Qed.

Lemma setupSession_start_new r id :
  EventLoop.clientOf (EventLoop.lookup r id) = None ->
  fst (EventLoop.setupSession_start id r)
  = Some (length (clients (EventLoop.world r)))
  /\ freshAfterSetup r id.
Proof.
  intros Hnone. unfold freshAfterSetup, EventLoop.setupSession_start.
  rewrite Hnone. split; [reflexivity|].
  destruct (lookup_assign_session r id
              (mkSession (length (clients (EventLoop.world r))) None false)
              Hnone) as [p Hp].
  exists p. exact Hp.
Qed.

(** ** C10: the entry left by a disconnect or a logout *)


Lemma logoutAlone_cases env id r :
  match EventLoop.clientOf (EventLoop.lookup r id) with
  | None =>
      logoutAlone env id r
      = (EventLoop.Answered (mkResponse 400 (BodyError "Session not found")), r)
  | Some c =>
      match logout env c, destroy env c with
      | Resolved _, Resolved _ =>
          logoutAlone env id r
          = (EventLoop.Answered (json (BodySuccess (id ++ " logged out"))),
             EventLoop.assign (logs [ClientLogout c; ClientDestroy c] r) id None)
      | Resolved _, Rejected err =>
          logoutAlone env id r
          = (EventLoop.Threw err, logs [ClientLogout c; ClientDestroy c] r)
      | Rejected err, _ =>
          logoutAlone env id r = (EventLoop.Threw err, logs [ClientLogout c] r)
      end
  end.
Proof.
  unfold logoutAlone, alone. cbn [EventLoop.begin].
  unfold EventLoop.get_api_logout.
  destruct (EventLoop.clientOf (EventLoop.lookup r id)) as [c|];
    [|reflexivity].
  cbn [fst snd EventLoop.drive EventLoop.resume].
  destruct (logout env c) as [[]|err]; cbn [EventLoop.drive EventLoop.resume].
  - destruct (destroy env c) as [[]|err]; cbn [EventLoop.drive];
      now rewrite !log_logs, logs_logs.
  - now destruct (destroy env c).
Qed.




(** ** C8: the two routes that remove a session *)

Lemma deleteAlone_spec env id r :
  deleteMany env id = Resolved tt ->
  deleteAlone env id r
  = (EventLoop.Answered (json (BodySuccess (id ++ " session deleted"))),
     EventLoop.remove
       (logs (SessionsDeleteMany id
              :: match EventLoop.clientOf (EventLoop.lookup r id) with
                 | Some c => [ClientDestroy c]
                 | None => []
                 end) r) id).
Proof.
  intros Hok. unfold deleteAlone, alone. cbn [EventLoop.begin].
  unfold EventLoop.delete_api_session. rewrite Hok.
  cbn [fst snd EventLoop.drive EventLoop.resume].
  unfold EventLoop.delete_api_session_deleted.
  change (EventLoop.lookup (EventLoop.log (SessionsDeleteMany id) r) id)
    with (EventLoop.lookup r id).
  destruct (EventLoop.clientOf (EventLoop.lookup r id)) as [c|];
    now rewrite !log_logs, ?logs_logs.
Qed.

Lemma remove_twice es r id :
  EventLoop.remove (logs es (EventLoop.remove r id)) id
  = logs es (EventLoop.remove r id).
Proof.
  destruct r as [[o c m t] p f].
  unfold EventLoop.remove, logs, EventLoop.setOwn, EventLoop.own, withSessions;
    simpl.
  now rewrite delete_idempotent.
Qed.

(** Apart from [__proto__], an id has a client exactly when [sessions] owns
    a session under it. *)
Lemma clientOf_lookup r id :
  id <> "__proto__" ->
  EventLoop.clientOf (EventLoop.lookup r id)
  = match get (EventLoop.own r) id with
    | Some (Some s) => Some (client s)
    | _ => None
    end.
Proof.
  intros Hne. unfold EventLoop.lookup.
  destruct (get (EventLoop.own r) id) as [[s|]|]; auto.
  now apply inherited_no_client.
Qed.

(** C8, as stated, fails of both routes.  The logout route answers an
    absent id with an error; the delete route does not call [logout]; and a
    session set up under [__proto__] is destroyed by every deletion and never
    removed. *)
Lemma remove_routes_not_as_stated :
  ~ removesAsSpecified logoutAlone
  /\ ~ removesAsSpecified deleteAlone
  /\ (let once := snd (deleteAlone calm "__proto__" protoReady) in
      let twice := snd (deleteAlone calm "__proto__" once) in
      EventLoop.lookup twice "__proto__"
      = EventLoop.VSession EventLoop.Prototype (mkSession 0 None true)
      /\ trace (EventLoop.world twice)
         = (trace (EventLoop.world protoReady)
            ++ [SessionsDeleteMany "__proto__"; ClientDestroy 0;
                SessionsDeleteMany "__proto__"; ClientDestroy 0])%list).
Proof.
  split; [|split].
  - intros [Habsent _].
    destruct (Habsent calm "a" EventLoop.start eq_refl) as (message & r' & H).
    vm_compute in H. discriminate.
  - intros [_ Hlive].
    destruct (Hlive calm "a" readyRealm (mkSession 0 None true) eq_refl)
      as [Hlogout _].
    vm_compute in Hlogout.
    repeat (destruct Hlogout as [Hlogout|Hlogout]; [discriminate|]).
    exact Hlogout.
  - split; reflexivity.
Qed.

(** C8, amended.  Removal is two routes, each taken with no other handler
    in between.  For an id other than [__proto__], whenever the deletion in
    the credential store resolves, [DELETE /api/session/:id] answers success,
    for an absent id as well as a second time, and leaves [sessions] without
    the id, as a single deletion does; when [sessions] owns a session under
    the id it calls the provider's [destroy] (not [logout]) before the entry
    is deleted, and calls nothing of the provider otherwise.
    [GET /api/logout/:id] on an id with a client whose provider accepts both
    calls logs out and then destroys before it sets the entry to [null]; on
    an id without a client, absent or already logged out, it answers 400
    [Session not found] and changes nothing. *)
Theorem remove_routes_alone env id r :
  (id <> "__proto__" ->
   deleteMany env id = Resolved tt ->
   let deleted :=
     EventLoop.Answered (json (BodySuccess (id ++ " session deleted"))) in
   let once := snd (deleteAlone env id r) in
   fst (deleteAlone env id r) = deleted
   /\ EventLoop.own once = delete (EventLoop.own r) id
   /\ get (EventLoop.own once) id = None
   /\ trace (EventLoop.world once)
      = (trace (EventLoop.world r)
         ++ SessionsDeleteMany id
            :: match get (EventLoop.own r) id with
               | Some (Some s) => [ClientDestroy (client s)]
               | _ => []
               end)%list
   /\ deleteAlone env id once = (deleted, logs [SessionsDeleteMany id] once))
  /\ (forall c,
        EventLoop.clientOf (EventLoop.lookup r id) = Some c ->
        logout env c = Resolved tt ->
        destroy env c = Resolved tt ->
        logoutAlone env id r
        = (EventLoop.Answered (json (BodySuccess (id ++ " logged out"))),
           EventLoop.assign (logs [ClientLogout c; ClientDestroy c] r) id None))
  /\ (EventLoop.clientOf (EventLoop.lookup r id) = None ->
      logoutAlone env id r
      = (EventLoop.Answered (mkResponse 400 (BodyError "Session not found")),
         r)).
Proof.
  split; [|split].
  - intros Hne Hok. cbv zeta.
    assert (Hgone : get (delete (EventLoop.own r) id) id = None)
      by apply get_delete_same.
    rewrite (deleteAlone_spec env id r Hok). cbn [fst snd].
    split; [reflexivity|]. split; [reflexivity|].
    split; [exact Hgone|]. split.
    { rewrite (clientOf_lookup r id Hne).
      now destruct (get (EventLoop.own r) id) as [[s|]|]. }
    rewrite deleteAlone_spec by exact Hok.
    rewrite (clientOf_lookup _ id Hne).
    change (get (EventLoop.own (EventLoop.remove _ id)) id)
      with (get (delete (EventLoop.own r) id) id).
    rewrite Hgone. now rewrite remove_twice.
  - intros c Hc Hlogout Hdestroy.
    pose proof (logoutAlone_cases env id r) as Hcases.
    now rewrite Hc, Hlogout, Hdestroy in Hcases.
  - intros Hnone. pose proof (logoutAlone_cases env id r) as Hcases.
    now rewrite Hnone in Hcases.
Qed.

Lemma remove_routes_alone_sample :
  fst (deleteAlone calm "a" readyRealm)
  = EventLoop.Answered (json (BodySuccess "a session deleted"))
  /\ EventLoop.own (snd (deleteAlone calm "a" readyRealm)) = []
  /\ fst (deleteAlone calm "a" (snd (deleteAlone calm "a" readyRealm)))
     = EventLoop.Answered (json (BodySuccess "a session deleted"))
  /\ fst (logoutAlone calm "a" readyRealm)
     = EventLoop.Answered (json (BodySuccess "a logged out"))
  /\ fst (logoutAlone calm "a" (snd (logoutAlone calm "a" readyRealm)))
     = EventLoop.Answered (mkResponse 400 (BodyError "Session not found")).
Proof.
  assert (Hne : "a" <> "__proto__") by discriminate.
  destruct (remove_routes_alone calm "a" readyRealm)
    as (Hdelete & Hlogout & _).
  destruct (Hdelete Hne eq_refl) as (Hfirst & Hown & _ & _ & Hsecond).
  destruct (remove_routes_alone calm "a" (snd (logoutAlone calm "a" readyRealm)))
    as (_ & _ & Hagain).
  split; [exact Hfirst|].
  split; [rewrite Hown; reflexivity|].
  split; [rewrite Hsecond; reflexivity|].
  split; [rewrite (Hlogout 0 eq_refl eq_refl eq_refl); reflexivity|].
  rewrite (Hagain eq_refl). reflexivity.
Defined.

(** ** C9: a session made again *)

(** C9, as stated, fails.  When the provider rejects [logout] the route
    throws before it empties the entry, and [setupSession] finds the old
    session, ready as before.  And a deletion does not remove the session set
    up under [__proto__]. *)
Lemma removed_session_carried_over :
  ~ freshAfterRemove logoutAlone logoutFails "a" readyRealm
  /\ ~ freshAfterRemove deleteAlone calm "__proto__" protoReady.
Proof.
  split; intros [p Hfresh]; vm_compute in Hfresh; discriminate.
Qed.

(** C9, amended.  After a logout that is answered, with success or with
    [Session not found], and for an id other than [__proto__] after a
    deletion that is answered with success, [setupSession] makes a session
    with a new client, no QR code and not ready, whatever the session held
    before. *)
Theorem recreated_session_fresh env id r :
  (forall response,
     fst (logoutAlone env id r) = EventLoop.Answered response ->
     freshAfterRemove logoutAlone env id r)
  /\ (id <> "__proto__" ->
      forall message,
        fst (deleteAlone env id r)
        = EventLoop.Answered (json (BodySuccess message)) ->
        freshAfterRemove deleteAlone env id r).
Proof.
  unfold freshAfterRemove. split.
  - intros response Hanswered.
    pose proof (logoutAlone_cases env id r) as Hcases.
    destruct (EventLoop.clientOf (EventLoop.lookup r id)) as [c|] eqn:Hclient.
    + destruct (logout env c) as [[]|err].
      * destruct (destroy env c) as [[]|err].
        -- rewrite Hcases. cbn [snd].
           apply setupSession_start_new, lookup_assign_null.
        -- rewrite Hcases in Hanswered. discriminate.
      * rewrite Hcases in Hanswered. discriminate.
    + rewrite Hcases. cbn [snd]. now apply setupSession_start_new.
  - intros Hne message Hanswered.
    destruct (deleteMany env id) as [[]|err] eqn:Hdeleted.
    + rewrite (deleteAlone_spec env id r Hdeleted). cbn [snd].
      apply setupSession_start_new. rewrite (clientOf_lookup _ id Hne).
      change (get (EventLoop.own (EventLoop.remove _ id)) id)
        with (get (delete (EventLoop.own r) id) id).
      now rewrite get_delete_same.
    + unfold deleteAlone, alone in Hanswered. cbn [EventLoop.begin] in Hanswered.
      unfold EventLoop.delete_api_session in Hanswered.
      rewrite Hdeleted in Hanswered. discriminate.
Qed.

Lemma recreated_session_fresh_sample :
  freshAfterRemove logoutAlone calm "a" readyRealm
  /\ freshAfterRemove deleteAlone calm "a" readyRealm
  /\ freshAfterRemove logoutAlone calm "__proto__" protoReady.
Proof.
  assert (Hne : "a" <> "__proto__") by discriminate.
  destruct (recreated_session_fresh calm "a" readyRealm) as [Hlogout Hdelete].
  destruct (recreated_session_fresh calm "__proto__" protoReady)
    as [Hproto _].
  split; [apply (Hlogout (json (BodySuccess "a logged out"))); reflexivity|].
  split; [apply (Hdelete Hne "a session deleted"); reflexivity|].
  apply (Hproto (json (BodySuccess "__proto__ logged out"))); reflexivity.
Defined.

(** ** C3: the QR code and readiness along the table *)

Lemma tracks_same g r r' :
  EventLoop.own r' = EventLoop.own r -> tracks g r -> tracks g r'.
Proof. intros Hown Ht id. rewrite Hown. apply Ht. Qed.

Lemma tracks_update g r r' id st :
  tracks g r ->
  (forall k, k <> id -> get (EventLoop.own r') k = get (EventLoop.own r) k) ->
  holds st (get (EventLoop.own r') id) ->
  tracks (set g id st) r'.
Proof.
  intros Ht Hother Hid k. destruct (string_dec id k) as [<-|Hne].
  - now rewrite get_set_same.
  - rewrite (get_set_other _ _ _ _ Hne), Hother by congruence. apply Ht.
Qed.

Lemma tracks_remove g r r' id :
  tracks g r ->
  (forall k, k <> id -> get (EventLoop.own r') k = get (EventLoop.own r) k) ->
  get (EventLoop.own r') id = None ->
  tracks (delete g id) r'.
Proof.
  intros Ht Hother Hid k. destruct (string_dec id k) as [<-|Hne].
  - now rewrite get_delete_same.
  - rewrite (get_delete_other _ _ _ Hne), Hother by congruence. apply Ht.
Qed.

Lemma own_set_other r id e k :
  k <> id ->
  get (EventLoop.own (EventLoop.setOwn r (set (EventLoop.own r) id e))) k
  = get (EventLoop.own r) k.
Proof.
  intros Hne. unfold EventLoop.setOwn, EventLoop.own; simpl.
  apply get_set_other. congruence.
Qed.

Lemma own_set_same r id e :
  get (EventLoop.own (EventLoop.setOwn r (set (EventLoop.own r) id e))) id
  = Some e.
Proof. unfold EventLoop.setOwn, EventLoop.own; simpl. apply get_set_same. Qed.

Lemma broadcastFrom_own env number message keys : forall results r,
  EventLoop.own
    (snd (EventLoop.broadcastFrom env number message keys results r))
  = EventLoop.own r.
Proof.
  induction keys as [|k keys IH]; intros results r; [reflexivity|].
  cbn [EventLoop.broadcastFrom].
  destruct (negb (EventLoop.stillEnumerable r k)); [apply IH|].
  destruct (EventLoop.isReadyOf r (EventLoop.lookup r k)); [|apply IH].
  destruct (EventLoop.clientOf (EventLoop.lookup r k)); [reflexivity|apply IH].
Qed.

Lemma createMessage_own env doc r :
  EventLoop.own (EventLoop.createMessage env doc r) = EventLoop.own r.
Proof. unfold EventLoop.createMessage. now destruct (create env doc). Qed.

Lemma replayTo_own socket id r :
  EventLoop.own (EventLoop.replayTo socket id r) = EventLoop.own r.
Proof.
  unfold EventLoop.replayTo.
  destruct (truthy _); [reflexivity|]. now destruct (EventLoop.isReadyOf _ _).
Qed.

(** [setupSession], for an id other than [__proto__]. *)
Lemma setupSession_start_own r id :
  id <> "__proto__" ->
  EventLoop.own (snd (EventLoop.setupSession_start id r))
  = match EventLoop.clientOf (EventLoop.lookup r id) with
    | Some _ => EventLoop.own r
    | None =>
        set (EventLoop.own r) id
            (Some (mkSession (length (clients (EventLoop.world r))) None false))
    end.
Proof.
  intros Hne. unfold EventLoop.setupSession_start.
  destruct (EventLoop.clientOf (EventLoop.lookup r id)); [reflexivity|].
  cbn [snd]. now rewrite (assign_own _ _ _ Hne).
Qed.

Lemma on_qr_rendered_own r id s imageUrl :
  get (EventLoop.own r) id = Some (Some s) ->
  EventLoop.own (snd (EventLoop.on_qr_rendered id imageUrl r))
  = set (EventLoop.own r) id
        (Some (mkSession (client s) (Some imageUrl) (isReady s))).
Proof.
  intros Hget. unfold EventLoop.on_qr_rendered, EventLoop.setLatestQR.
  now rewrite (lookup_own_session _ _ _ Hget).
Qed.

Lemma on_ready_own r id s :
  get (EventLoop.own r) id = Some (Some s) ->
  EventLoop.own (snd (EventLoop.on_ready id r))
  = set (EventLoop.own r) id (Some (mkSession (client s) None true)).
Proof.
  intros Hget. unfold EventLoop.on_ready, EventLoop.setIsReady.
  rewrite (lookup_own_session _ _ _ Hget). cbn [EventLoop.putSession].
  unfold EventLoop.setLatestQR.
  rewrite (lookup_own_session _ id (mkSession (client s) (latestQR s) true))
    by apply own_set_same.
  cbn [snd EventLoop.putSession client isReady].
  unfold EventLoop.log, EventLoop.setOwn, EventLoop.own; simpl.
  apply set_set.
Qed.

Lemma tableEvent_inv id e g g' :
  tableEvent id e g = Some g' ->
  exists st st',
    get g id = Some st /\ Spec.transition st e = Some st'
    /\ g' = set g id st'.
Proof.
  unfold tableEvent. intros H.
  destruct (get g id) as [st|]; [|discriminate].
  destruct (Spec.transition st e) as [st'|] eqn:Ht; [|discriminate].
  injection H as <-. now exists st, st'.
Qed.

Lemma notProto_inv id g g' :
  notProto id g = Some g' -> id <> "__proto__" /\ g = Some g'.
Proof.
  unfold notProto. destruct (String.eqb_spec id "__proto__"); [discriminate|].
  auto.
Qed.

Lemma realm_settle o r others :
  EventLoop.realm (EventLoop.settle o r others) = r.
Proof. now destruct o. Qed.

Lemma holds_authenticating st e :
  st = Spec.Uninitialized \/ st = Spec.AwaitingScan ->
  holds st e -> holds Spec.Authenticating e.
Proof.
  intros [-> | ->] (s & He & H); exists s; tauto.
Qed.

Lemma setup_tracks g g' r r1 id :
  match EventLoop.clientOf (EventLoop.lookup r id) with
  | Some _ => Some g
  | None => Some (set g id Spec.Uninitialized)
  end = Some g' ->
  EventLoop.own r1
  = match EventLoop.clientOf (EventLoop.lookup r id) with
    | Some _ => EventLoop.own r
    | None =>
        set (EventLoop.own r) id
            (Some (mkSession (length (clients (EventLoop.world r))) None false))
    end ->
  tracks g r -> tracks g' r1.
Proof.
  intros Hf Hown Ht.
  destruct (EventLoop.clientOf (EventLoop.lookup r id)); injection Hf as <-.
  - now apply (tracks_same g r).
  - apply (tracks_update g r r1 id Spec.Uninitialized Ht).
    + intros k Hk. rewrite Hown. apply get_set_other. congruence.
    + rewrite Hown, get_set_same. eexists. split; [reflexivity|]. auto.
Qed.

Lemma begin_tracks env a l g g' :
  follow (EventLoop.Begin a) l g = Some g' ->
  tracks g (EventLoop.realm l) ->
  tracks g' (snd (EventLoop.begin env a (EventLoop.realm l))).
Proof.
  intros Hf Ht. set (r := EventLoop.realm l) in *.
  destruct a as [c ev|id|id|id| |id|id|id number message now|number message
                |socket id]; cbn [follow] in Hf; fold r in Hf;
    cbn [EventLoop.begin].
  - destruct (nth_error (clients (EventLoop.world r)) c) as [id|];
      [|injection Hf as <-; exact Ht].
    apply notProto_inv in Hf as [Hne Hf].
    destruct ev as [qr| | | |f b now|]; cbn [EventLoop.handler].
    + injection Hf as <-. exact Ht.
    + apply tableEvent_inv in Hf as (st & st' & Hst & Htr & ->).
      apply (tracks_update g r r id st' Ht); [reflexivity|].
      pose proof (Ht id) as Hid. rewrite Hst in Hid.
      destruct st; try discriminate; injection Htr as <-;
        (eapply holds_authenticating; [|exact Hid]; auto).
    + apply tableEvent_inv in Hf as (st & st' & Hst & Htr & ->).
      pose proof (Ht id) as Hid. rewrite Hst in Hid.
      destruct st; try discriminate. injection Htr as <-.
      destruct Hid as (s & Hs & Hnot).
      apply (tracks_update g r _ id Spec.Ready Ht).
      * intros k Hk. rewrite (on_ready_own r id s Hs).
        apply get_set_other. congruence.
      * rewrite (on_ready_own r id s Hs), get_set_same.
        exists (mkSession (client s) None true). auto.
    + injection Hf as <-. exact Ht.
    + injection Hf as <-. unfold EventLoop.on_message. cbn [snd].
      apply (tracks_same g r); [apply createMessage_own | exact Ht].
    + injection Hf as <-. unfold EventLoop.on_disconnected. cbn [snd].
      rewrite (assign_own _ _ _ Hne).
      apply (tracks_update g r _ id Spec.Terminated Ht).
      * intros k Hk. now apply own_set_other.
      * cbn [holds]. apply own_set_same.
  - apply notProto_inv in Hf as [Hne Hf].
    assert (Hown := setupSession_start_own r id Hne).
    unfold EventLoop.get_qr_view.
    destruct (EventLoop.setupSession_start id r) as [[c|] r1] eqn:Hs;
      cbn [snd] in *; exact (setup_tracks g g' r r1 id Hf Hown Ht).
  - injection Hf as <-. exact Ht.
  - injection Hf as <-. exact Ht.
  - injection Hf as <-. exact Ht.
  - apply notProto_inv in Hf as [Hne Hf]. injection Hf as <-.
    unfold EventLoop.get_api_logout.
    now destruct (EventLoop.clientOf (EventLoop.lookup r id)).
  - apply notProto_inv in Hf as [Hne Hf]. injection Hf as <-. exact Ht.
  - injection Hf as <-. unfold EventLoop.post_api_send.
    destruct (_ || _); [exact Ht|].
    now destruct (EventLoop.clientOf (EventLoop.lookup r id)).
  - injection Hf as <-. unfold EventLoop.post_api_broadcast.
    apply (tracks_same g r); [apply broadcastFrom_own | exact Ht].
  - apply notProto_inv in Hf as [Hne Hf].
    assert (Hown := setupSession_start_own
                      (EventLoop.log (SocketJoin socket id) r) id Hne).
    change (EventLoop.lookup (EventLoop.log (SocketJoin socket id) r) id)
      with (EventLoop.lookup r id) in Hown.
    change (EventLoop.own (EventLoop.log (SocketJoin socket id) r))
      with (EventLoop.own r) in Hown.
    change (clients (EventLoop.world (EventLoop.log (SocketJoin socket id) r)))
      with (clients (EventLoop.world r)) in Hown.
    unfold EventLoop.on_join.
    destruct (EventLoop.setupSession_start id _) as [[c|] r1] eqn:Hs;
      cbn [snd] in *.
    + exact (setup_tracks g g' r r1 id Hf Hown Ht).
    + apply (tracks_same g' r1); [apply replayTo_own|].
      exact (setup_tracks g g' r r1 id Hf Hown Ht).
Qed.

Lemma resume_tracks env task now r g :
  match task with
  | EventLoop.QrRendering _ (Resolved _)
  | EventLoop.Destroying _ (Resolved _)
  | EventLoop.Deleting _ (Resolved _) => False
  | _ => True
  end ->
  tracks g r -> tracks g (snd (EventLoop.resume env task now r)).
Proof.
  intros Hplain Ht.
  destruct task as [id [[]|err]|socket id [[]|err]|id [url|err]
                   |id from text time [[]|err]|id c [[]|err]|id [[]|err]
                   |id [[]|err]|id number message [messageId|err]
                   |messageId [[]|err]
                   |number message id [messageId|err] rest results];
    try contradiction; cbn [EventLoop.resume snd]; try exact Ht.
  - apply (tracks_same g r); [apply replayTo_own | exact Ht].
  - apply (tracks_same g r); [apply createMessage_own | exact Ht].
  - apply (tracks_same g r); [apply broadcastFrom_own | exact Ht].
  - apply (tracks_same g r); [apply broadcastFrom_own | exact Ht].
Qed.

Lemma turn_tracks env t l g g' :
  follow t l g = Some g' ->
  tracks g (EventLoop.realm l) ->
  tracks g' (EventLoop.realm (EventLoop.turn env t l)).
Proof.
  intros Hf Ht. destruct t as [a|i now].
  - cbn [EventLoop.turn].
    pose proof (begin_tracks env a l g g' Hf Ht) as Hb.
    destruct (EventLoop.begin env a (EventLoop.realm l)) as [o r'].
    now rewrite realm_settle.
  - cbn [EventLoop.turn]. cbn [follow] in Hf.
    set (r := EventLoop.realm l) in *.
    destruct (nth_error (EventLoop.pending l) i) as [task|];
      [|injection Hf as <-; exact Ht].
    assert (Hgoal : tracks g' (snd (EventLoop.resume env task now r))).
    { destruct task as [id [[]|err]|socket id [[]|err]|id [url|err]
                       |id from text time [[]|err]|id c [[]|err]|id [[]|err]
                       |id [[]|err]|id number message [messageId|err]
                       |messageId [[]|err]
                       |number message id [messageId|err] rest results];
        try (injection Hf as <-; now apply resume_tracks).
      - apply notProto_inv in Hf as [Hne Hf].
        apply tableEvent_inv in Hf as (st & st' & Hst & Htr & ->).
        pose proof (Ht id) as Hid. rewrite Hst in Hid.
        cbn [EventLoop.resume].
        assert (Hs : exists s, get (EventLoop.own r) id = Some (Some s)
                               /\ isReady s = false).
        { destruct st; try discriminate; destruct Hid as (s & Hs & H);
            exists s; tauto. }
        destruct Hs as (s & Hs & Hnot).
        assert (st' = Spec.AwaitingScan) as ->
          by (destruct st; try discriminate; now injection Htr).
        apply (tracks_update g r _ id Spec.AwaitingScan Ht).
        + intros k Hk. rewrite (on_qr_rendered_own r id s url Hs).
          apply get_set_other. congruence.
        + rewrite (on_qr_rendered_own r id s url Hs), get_set_same.
          eexists. split; [reflexivity|]. split; [discriminate | exact Hnot].
      - apply notProto_inv in Hf as [Hne Hf]. injection Hf as <-.
        cbn [EventLoop.resume snd]. rewrite (assign_own _ _ _ Hne).
        apply (tracks_update g r _ id Spec.Terminated Ht).
        + intros k Hk. now apply own_set_other.
        + cbn [holds]. apply own_set_same.
      - apply notProto_inv in Hf as [Hne Hf]. injection Hf as <-.
        cbn [EventLoop.resume]. unfold EventLoop.delete_api_session_deleted.
        cbn [snd]. apply (tracks_remove g r _ id Ht).
        + intros k Hk.
          destruct (EventLoop.clientOf (EventLoop.lookup r id));
            unfold EventLoop.remove, EventLoop.setOwn, EventLoop.own; simpl;
            apply get_delete_other; congruence.
        + destruct (EventLoop.clientOf (EventLoop.lookup r id));
            unfold EventLoop.remove, EventLoop.setOwn, EventLoop.own; simpl;
            apply get_delete_same. }
    destruct (EventLoop.resume env task now r) as [o r'].
    now rewrite realm_settle.
Qed.

Lemma followAll_tracks env schedule : forall l g g',
  followAll env schedule l g = Some g' ->
  tracks g (EventLoop.realm l) ->
  tracks g' (EventLoop.realm (EventLoop.play env schedule l)).
Proof.
  induction schedule as [|t rest IH]; intros l g g' Hf Ht.
  - injection Hf as <-. exact Ht.
  - cbn [followAll] in Hf.
    destruct (follow t l g) as [g1|] eqn:Hstep; [|discriminate].
    apply (IH _ _ _ Hf). now apply (turn_tracks env t l g).
Qed.

(** C3, as stated, fails.  After the scan the table has the session in
    [Authenticating], and it still holds the QR code that was scanned.  And
    when the session becomes ready while the image of a QR code is being
    rendered, the handler of [qr] stores the image afterwards: the session is
    ready and holds a QR code. *)
Lemma qr_code_outside_awaiting_scan :
  (exists g,
     followAll calm scanned EventLoop.boot [] = Some g
     /\ get g "a" = Some Spec.Authenticating
     /\ ~ qrOnlyInAwaitingScan g (played scanned))
  /\ (exists s,
        get (EventLoop.own (played racing)) "a" = Some (Some s)
        /\ stateOf (Some s) = Ready
        /\ latestQR s <> None).
Proof.
  split.
  - exists [("a", Spec.Authenticating)].
    split; [reflexivity|]. split; [reflexivity|].
    intros Hinv.
    destruct (Hinv "a" Spec.Authenticating eq_refl) as (_ & _ & Honly).
    assert (Hno : Spec.Authenticating = Spec.AwaitingScan)
      by (apply Honly; vm_compute; discriminate).
    discriminate.
  - exists (mkSession 0 (Some (dataUrl "2@abc")) true).
    split; [reflexivity|]. split; [reflexivity | discriminate].
Qed.

(** C3, amended.  Along every run of the server that follows the
    transition table of the specification, a QR code counting as received
    when the handler of [qr] stores its image, and no turn working on the id
    [__proto__], the table and [sessions] agree: an id has a state exactly
    when [sessions] owns it; a session in [Uninitialized] has no QR code, one
    in [AwaitingScan] has a QR code, one in [Ready] has none and is ready,
    one in [Terminated] is [null].  A QR code is held in [AwaitingScan] and
    in [Authenticating] only: the scanned code stays until [ready]. *)
Theorem table_run_qr_and_readiness env schedule g :
  followAll env schedule EventLoop.boot [] = Some g ->
  let r := EventLoop.realm (EventLoop.play env schedule EventLoop.boot) in
  tracks g r
  /\ forall id st,
       get g id = Some st ->
       let qr := EventLoop.latestQROf r (EventLoop.lookup r id) in
       (st = Spec.AwaitingScan -> qr <> None)
       /\ (st = Spec.Ready ->
           qr = None /\ EventLoop.isReadyOf r (EventLoop.lookup r id) = true)
       /\ (qr <> None -> st = Spec.AwaitingScan \/ st = Spec.Authenticating).
Proof.
  intros Hf. cbv zeta.
  assert (Ht : tracks g (EventLoop.realm
                           (EventLoop.play env schedule EventLoop.boot))).
  { apply (followAll_tracks env schedule EventLoop.boot [] g Hf).
    intros id. reflexivity. }
  split; [exact Ht|].
  intros id st Hst. pose proof (Ht id) as Hid. rewrite Hst in Hid.
  destruct st; cbn [holds] in Hid.
  - destruct Hid as (s & Hs & Hqr & Hready).
    rewrite (lookup_own_session _ _ _ Hs). cbn [EventLoop.latestQROf].
    split; [discriminate|]. split; [discriminate|]. congruence.
  - destruct Hid as (s & Hs & Hqr & Hready).
    rewrite (lookup_own_session _ _ _ Hs). cbn [EventLoop.latestQROf].
    split; [auto|]. split; [discriminate|]. auto.
  - destruct Hid as (s & Hs & Hready).
    rewrite (lookup_own_session _ _ _ Hs). cbn [EventLoop.latestQROf].
    split; [discriminate|]. split; [discriminate|]. auto.
  - destruct Hid as (s & Hs & Hqr & Hready).
    rewrite (lookup_own_session _ _ _ Hs).
    cbn [EventLoop.latestQROf EventLoop.isReadyOf].
    split; [discriminate|]. split; [auto|]. congruence.
  - rewrite (lookup_own_null _ _ Hid). cbn [EventLoop.latestQROf].
    split; [discriminate|]. split; [discriminate|]. congruence.
Qed.

Lemma table_run_sample :
  followAll calm paired EventLoop.boot [] = Some [("a", Spec.Ready)]
  /\ EventLoop.latestQROf (played paired) (EventLoop.lookup (played paired) "a")
     = None
  /\ EventLoop.isReadyOf (played paired) (EventLoop.lookup (played paired) "a")
     = true
  /\ tracks [("a", Spec.Authenticating)] (played scanned).
Proof.
  destruct (table_run_qr_and_readiness calm paired [("a", Spec.Ready)] eq_refl)
    as [_ Hready].
  destruct (Hready "a" Spec.Ready eq_refl) as (_ & Hnone & _).
  destruct (table_run_qr_and_readiness calm scanned
              [("a", Spec.Authenticating)] eq_refl) as [Htracks _].
  split; [reflexivity|].
  split; [exact (proj1 (Hnone eq_refl))|].
  split; [exact (proj2 (Hnone eq_refl)) | exact Htracks].
Defined.

(** ** Events that come late *)

Lemma sameObject_refl o : EventLoop.sameObject o o = true.
Proof.
  destruct o; cbn [EventLoop.sameObject]; auto using String.eqb_refl,
    Nat.eqb_refl.
Qed.

Lemma extraOf_setExtra r o x :
  EventLoop.extraOf (EventLoop.setExtra r o x) o = x.
Proof.
  unfold EventLoop.extraOf, EventLoop.setExtra; simpl.
  now rewrite sameObject_refl.
Qed.

(** An object met along the prototype chain is there whatever has been
    written onto it. *)
Lemma inherited_object r r' id o :
  EventLoop.inherited r id = EventLoop.VObject o ->
  EventLoop.proto r' = EventLoop.proto r ->
  EventLoop.inherited r' id = EventLoop.VObject o.
Proof.
  unfold EventLoop.inherited, EventLoop.objectPrototypeGet.
  intros H Hp. rewrite Hp.
  assert (Hget : forall x,
            (if EventLoop.isBuiltin id
             then EventLoop.VObject (EventLoop.Function id)
             else if String.eqb id "latestQR"
                  then EventLoop.ofLatestQR
                         (EventLoop.xLatestQR
                            (EventLoop.extraOf r EventLoop.ObjectPrototype))
                  else if String.eqb id "isReady"
                       then if EventLoop.xIsReady
                                 (EventLoop.extraOf r EventLoop.ObjectPrototype)
                            then EventLoop.VBool true
                            else EventLoop.VUndefined
                       else EventLoop.VUndefined)
            = EventLoop.VObject o ->
            (if EventLoop.isBuiltin id
             then EventLoop.VObject (EventLoop.Function id)
             else x) = EventLoop.VObject o).
  { intros x. destruct (EventLoop.isBuiltin id); auto.
    destruct (String.eqb id "latestQR").
    - now destruct (EventLoop.xLatestQR _) as [[q|]|].
    - destruct (String.eqb id "isReady"); [|discriminate].
      now destruct (EventLoop.xIsReady _). }
  destruct (EventLoop.proto r) as [|s|]; try discriminate.
  - destruct (String.eqb id "__proto__"); auto.
  - destruct (String.eqb id "client"); auto.
    destruct (String.eqb id "latestQR"); [now destruct (latestQR s)|].
    destruct (String.eqb id "isReady"); [discriminate|].
    destruct (String.eqb id "__proto__"); auto.
Qed.

(** X5.  A [ready] event, or the image of a [qr] event, that comes for an
    id whose entry is [null] (after a disconnect or a logout), or is missing
    with nothing inherited under the name (after a deletion), makes the
    handler throw the engine's [TypeError] and changes nothing.  For a
    missing id under which [sessions] inherits an object, such as the
    function [constructor], the handler of [ready] does not throw: it writes
    onto that object and emits [ready], and the id reads as ready. *)
Theorem late_event_throws_or_marks_inherited id imageUrl r :
  (get (EventLoop.own r) id = Some None ->
   EventLoop.on_ready id r
   = (EventLoop.Threw "Cannot set properties of null (setting 'isReady')", r)
   /\ EventLoop.on_qr_rendered id imageUrl r
      = (EventLoop.Threw "Cannot set properties of null (setting 'latestQR')",
         r))
  /\ (get (EventLoop.own r) id = None ->
      EventLoop.inherited r id = EventLoop.VUndefined ->
      EventLoop.on_ready id r
      = (EventLoop.Threw
           "Cannot set properties of undefined (setting 'isReady')", r)
      /\ EventLoop.on_qr_rendered id imageUrl r
         = (EventLoop.Threw
              "Cannot set properties of undefined (setting 'latestQR')", r))
  /\ (get (EventLoop.own r) id = None ->
      forall o,
        EventLoop.inherited r id = EventLoop.VObject o ->
        exists r',
          EventLoop.on_ready id r = (EventLoop.Returned, r')
          /\ EventLoop.own r' = EventLoop.own r
          /\ EventLoop.lookup r' id = EventLoop.VObject o
          /\ EventLoop.isReadyOf r' (EventLoop.lookup r' id) = true
          /\ trace (EventLoop.world r')
             = (trace (EventLoop.world r) ++ [RoomEmit id PushReady])%list).
Proof.
  split; [|split].
  - intros Hnull. unfold EventLoop.on_ready, EventLoop.on_qr_rendered,
      EventLoop.setIsReady, EventLoop.setLatestQR.
    now rewrite (lookup_own_null _ _ Hnull).
  - intros Hnone Hundef. unfold EventLoop.on_ready, EventLoop.on_qr_rendered,
      EventLoop.setIsReady, EventLoop.setLatestQR, EventLoop.lookup.
    now rewrite Hnone, Hundef.
  - intros Hnone o Hobject.
    assert (Hlook : forall r',
              EventLoop.own r' = EventLoop.own r ->
              EventLoop.proto r' = EventLoop.proto r ->
              EventLoop.lookup r' id = EventLoop.VObject o).
    { intros r' Hown Hproto. unfold EventLoop.lookup.
      rewrite Hown, Hnone. now apply (inherited_object r). }
    unfold EventLoop.on_ready, EventLoop.setIsReady.
    rewrite (Hlook r eq_refl eq_refl).
    set (x := if EventLoop.xIsReady (EventLoop.extraOf r o) then _ else _).
    assert (Hx : EventLoop.xIsReady x = true).
    { subst x. now destruct (EventLoop.xIsReady (EventLoop.extraOf r o)) eqn:E. }
    unfold EventLoop.setLatestQR.
    rewrite (Hlook (EventLoop.setExtra r o x) eq_refl eq_refl).
    rewrite extraOf_setExtra, Hx.
    eexists. split; [reflexivity|].
    split; [reflexivity|]. split; [now apply Hlook|].
    split; [|reflexivity].
    rewrite Hlook by reflexivity. cbn [EventLoop.isReadyOf].
    change (EventLoop.extraOf (EventLoop.log _ ?r1) o)
      with (EventLoop.extraOf r1 o).
    now rewrite extraOf_setExtra.
Qed.

Lemma late_event_sample :
  EventLoop.on_ready "B" threeRealm
  = (EventLoop.Threw "Cannot set properties of null (setting 'isReady')",
     threeRealm)
  /\ EventLoop.on_ready "a" EventLoop.start
     = (EventLoop.Threw
          "Cannot set properties of undefined (setting 'isReady')",
        EventLoop.start)
  /\ fst (EventLoop.on_ready "constructor" EventLoop.start)
     = EventLoop.Returned.
Proof.
  destruct (late_event_throws_or_marks_inherited "B" "data:" threeRealm)
    as (Hnull & _).
  destruct (late_event_throws_or_marks_inherited "a" "data:" EventLoop.start)
    as (_ & Hundef & _).
  destruct (late_event_throws_or_marks_inherited
              "constructor" "data:" EventLoop.start) as (_ & _ & Hobject).
  split; [exact (proj1 (Hnull eq_refl))|].
  split; [exact (proj1 (Hundef eq_refl eq_refl))|].
  destruct (Hobject eq_refl (EventLoop.Function "constructor") eq_refl)
    as (r' & Hrun & _).
  now rewrite Hrun.
Defined.

(** ** First contact with an id *)

(** X9.  For an id without a client, [GET /qr/:id] and a [join] each make
    one client, put its session in place and stop at the [await] of its
    initialization.  What they answer is read when the initialization has
    settled: [QR not ready] and no push if nothing happened meanwhile; the QR
    code that a [qr] event stored meanwhile, as page and as push; the ready
    signal to the joining socket if the session became ready; and when the
    initialization rejects, the route and the join throw. *)
Theorem first_contact_awaits env socket id r :
  EventLoop.clientOf (EventLoop.lookup r id) = None ->
  let c := length (clients (EventLoop.world r)) in
  (exists r1,
     EventLoop.get_qr_view env id r
     = (EventLoop.Suspended
          (EventLoop.QrViewInitializing id (initialize env c)), r1)
     /\ clients (EventLoop.world r1) = (clients (EventLoop.world r) ++ [id])%list
     /\ trace (EventLoop.world r1)
        = (trace (EventLoop.world r)
           ++ [NewClient c id; ClientInitialize c])%list
     /\ (exists p,
           EventLoop.lookup r1 id
           = EventLoop.VSession p (mkSession c None false))
     /\ forall now,
          EventLoop.resume env (EventLoop.QrViewInitializing id (Resolved tt))
            now r1
          = (EventLoop.Answered (json (BodyText "QR not ready")), r1))
  /\ (exists r1,
        EventLoop.on_join env socket id r
        = (EventLoop.Suspended
             (EventLoop.JoinInitializing socket id (initialize env c)), r1)
        /\ clients (EventLoop.world r1)
           = (clients (EventLoop.world r) ++ [id])%list
        /\ trace (EventLoop.world r1)
           = (trace (EventLoop.world r)
              ++ [SocketJoin socket id; NewClient c id;
                  ClientInitialize c])%list
        /\ (exists p,
              EventLoop.lookup r1 id
              = EventLoop.VSession p (mkSession c None false))
        /\ forall now,
             EventLoop.resume env
               (EventLoop.JoinInitializing socket id (Resolved tt)) now r1
             = (EventLoop.Returned, r1))
  /\ (forall now r2 p s q,
        EventLoop.lookup r2 id = EventLoop.VSession p s ->
        latestQR s = Some q -> q <> EmptyString ->
        EventLoop.resume env (EventLoop.QrViewInitializing id (Resolved tt))
          now r2
        = (EventLoop.Answered
             (json (BodyText
                ("<html><body><h2>Scan QR for " ++ id
                 ++ "</h2><img src=" ++ quote ++ q ++ quote
                 ++ " width=" ++ quote ++ "300" ++ quote
                 ++ "/></body></html>"))), r2)
        /\ EventLoop.resume env
             (EventLoop.JoinInitializing socket id (Resolved tt)) now r2
           = (EventLoop.Returned,
              EventLoop.log (SocketEmit socket (PushQr q)) r2))
  /\ (forall now r2 p s,
        EventLoop.lookup r2 id = EventLoop.VSession p s ->
        latestQR s = None -> isReady s = true ->
        EventLoop.resume env
          (EventLoop.JoinInitializing socket id (Resolved tt)) now r2
        = (EventLoop.Returned, EventLoop.log (SocketEmit socket PushReady) r2))
  /\ (forall err now r2,
        EventLoop.resume env (EventLoop.QrViewInitializing id (Rejected err))
          now r2
        = (EventLoop.Threw err, r2)
        /\ EventLoop.resume env
             (EventLoop.JoinInitializing socket id (Rejected err)) now r2
           = (EventLoop.Threw err, r2)).
Proof.
  intros Hnone. cbv zeta.
  set (fresh := mkSession (length (clients (EventLoop.world r))) None false).
  split; [|split; [|split; [|split]]].
  - unfold EventLoop.get_qr_view, EventLoop.setupSession_start.
    rewrite Hnone. fold fresh.
    destruct (lookup_assign_session r id fresh Hnone) as [p Hp].
    eexists. split; [reflexivity|].
    split; [reflexivity|]. split; [reflexivity|].
    split; [exists p; exact Hp|].
    intros now. cbn [EventLoop.resume]. unfold EventLoop.qrViewAnswer.
    match goal with
    | |- context [EventLoop.lookup ?r1 id] =>
        change (EventLoop.lookup r1 id)
          with (EventLoop.lookup (EventLoop.assign r id (Some fresh)) id)
    end.
    now rewrite Hp.
  - unfold EventLoop.on_join, EventLoop.setupSession_start.
    change (EventLoop.lookup (EventLoop.log (SocketJoin socket id) r) id)
      with (EventLoop.lookup r id).
    rewrite Hnone.
    change (length (clients (EventLoop.world
                               (EventLoop.log (SocketJoin socket id) r))))
      with (length (clients (EventLoop.world r))).
    fold fresh.
    destruct (lookup_assign_session
                (EventLoop.log (SocketJoin socket id) r) id fresh Hnone)
      as [p Hp].
    eexists. split; [reflexivity|].
    split; [reflexivity|].
    split; [cbn; now rewrite <- app_assoc|].
    split; [exists p; exact Hp|].
    intros now. cbn [EventLoop.resume]. unfold EventLoop.replayTo.
    match goal with
    | |- context [EventLoop.lookup ?r1 id] =>
        change (EventLoop.lookup r1 id)
          with (EventLoop.lookup
                  (EventLoop.assign (EventLoop.log (SocketJoin socket id) r)
                                    id (Some fresh)) id)
    end.
    now rewrite Hp.
  - intros now r2 p s q Hlook Hqr Hq. apply String.eqb_neq in Hq.
    cbn [EventLoop.resume].
    unfold EventLoop.qrViewAnswer, EventLoop.replayTo.
    rewrite Hlook. cbn [EventLoop.latestQROf]. rewrite Hqr.
    cbn [truthy stringOf]. now rewrite Hq.
  - intros now r2 p s Hlook Hqr Hready. cbn [EventLoop.resume].
    unfold EventLoop.replayTo. rewrite Hlook.
    cbn [EventLoop.latestQROf EventLoop.isReadyOf]. now rewrite Hqr, Hready.
  - intros err now r2. split; reflexivity.
Qed.

Lemma first_contact_sample :
  fst (EventLoop.get_qr_view calm "a" EventLoop.start)
  = EventLoop.Suspended (EventLoop.QrViewInitializing "a" (Resolved tt))
  /\ fst (EventLoop.resume calm (EventLoop.QrViewInitializing "a" (Resolved tt))
            0 (played qrWhileInitializing))
     = EventLoop.Answered
         (json (BodyText
            ("<html><body><h2>Scan QR for a</h2><img src=" ++ quote
             ++ "data:image/png;base64,2@abc" ++ quote
             ++ " width=" ++ quote ++ "300" ++ quote ++ "/></body></html>"))).
Proof.
  destruct (first_contact_awaits calm 7 "a" EventLoop.start eq_refl)
    as ((r1 & Hbegun & _) & _ & Hserved & _).
  split; [now rewrite Hbegun|].
  destruct (Hserved 0%N (played qrWhileInitializing) EventLoop.Own
              (mkSession 0 (Some "data:image/png;base64,2@abc") false)
              "data:image/png;base64,2@abc" eq_refl eq_refl)
    as [Hpage _]; [discriminate|].
  now rewrite Hpage.
Defined.
